(** * piker chart graphics: bar geometry cache, render batches, crosshair
      and level labels

    A shallow embedding of [piker/ui/_graphics.py] (the [BarItems] bar
    graphics) and of [piker/ui/_graphics/__init__.py] (the [CrossHair],
    [ContentsLabel], [LevelLabel], [L1Label] and [LevelLine] classes).

    Prices are binary64 floats (numpy [float64], Qt [qreal]); bar indices
    and the write cursor are integers.  Python exceptions are values of
    [exn]; a method is a state transformer that keeps the mutated object
    when it raises. *)

From stdpp Require Import base list strings.
From Stdlib Require Import ZArith Lia Floats Ascii DecimalString.

Set Warnings "-inexact-float".
Set Default Proof Using "Type".

(** ** Python values shared by all classes *)

Module Py.

Inductive exn :=
| AssertionError
| AttributeError
| IndexError
| KeyError
| OverflowError
| TypeError
| ValueError.

Inductive outcome (A : Type) :=
| Ok (a : A)
| Raise (e : exn).
Arguments Ok {A} a.
Arguments Raise {A} e.

(** A method of an object of state [St]: it returns or raises, and in
    both cases leaves the (possibly mutated) object behind. *)
Definition M (St A : Type) : Type := St -> outcome A * St.

Definition ret {St A} (a : A) : M St A := fun s => (Ok a, s).
Definition raise {St A} (e : exn) : M St A := fun s => (Raise e, s).
Definition bind {St A B} (c : M St A) (k : A -> M St B) : M St B :=
  fun s => match c s with
           | (Ok a, s') => k a s'
           | (Raise e, s') => (Raise e, s')
           end.
Definition gets {St A} (f : St -> A) : M St A := fun s => (Ok (f s), s).
Definition modify {St} (f : St -> St) : M St unit := fun s => (Ok tt, f s).
Definition lift {St A} (e : exn) (o : option A) : M St A :=
  match o with Some a => ret a | None => raise e end.

(** [len(l)] *)
Definition len {A} (l : list A) : Z := Z.of_nat (length l).

(** A subscript [l[i]]: negative values count from the end; the position
    is [None] when Python raises [IndexError]. *)
Definition position {A} (l : list A) (i : Z) : option nat :=
  let j := if (i <? 0)%Z then (i + len l)%Z else i in
  if ((0 <=? j) && (j <? len l))%Z then Some (Z.to_nat j) else None.

Definition item {A} (l : list A) (i : Z) : option A :=
  p ← position l i; l !! p.

(** One bound of a slice [l[a:b]]: wrapped when negative, then clipped. *)
Definition bound {A} (l : list A) (i : Z) : nat :=
  Z.to_nat (Z.min (len l) (Z.max 0 (if (i <? 0)%Z then i + len l else i))).

Definition slice {A} (l : list A) (a b : Z) : list A :=
  take (bound l b - bound l a) (drop (bound l a) l).

(** *** Floats: [round(x)] and the fixed-point format [f] *)

Local Open Scope Z_scope.

(** The integer nearest to [n / d] for [0 <= n] and [0 < d], ties going
    to the even one. *)
Definition half_even (n d : Z) : Z :=
  let q := n / d in
  match 2 * (n mod d) ?= d with
  | Lt => q
  | Gt => q + 1
  | Eq => if Z.even q then q else q + 1
  end.

(** [m * 2^e * k] rounded to an integer, for a positive integer [k]. *)
Definition scaled (m : positive) (e : Z) (k : Z) : Z :=
  if 0 <=? e then Z.pos m * 2 ^ e * k
  else half_even (Z.pos m * k) (2 ^ (- e)).

(** [round(x)] of a float: an [int], ties to even; not for nan or inf. *)
Definition round (x : float) : outcome Z :=
  match Prim2SF x with
  | S754_zero _ => Ok 0
  | S754_infinity _ => Raise OverflowError
  | S754_nan => Raise ValueError
  | S754_finite s m e =>
      let n := scaled m e 1 in Ok (if s then - n else n)
  end.

Definition digits_of (n : Z) : string :=
  NilZero.string_of_uint (N.to_uint (Z.to_N n)).

Fixpoint zeros (k : nat) : string :=
  match k with O => EmptyString | S k' => String "0"%char (zeros k') end.

(** [s] padded with zeros on the left up to [k] characters *)
Definition zfill (k : nat) (s : string) : string :=
  zeros (k - String.length s) +:+ s.

(** A comma before every group of three digits, counted from the right:
    [acc] holds the digits already placed, [k] how many since the last
    comma. *)
Fixpoint group_rev (ds : list ascii) (k : nat) (acc : list ascii)
    : list ascii :=
  match ds with
  | [] => acc
  | d :: ds' =>
      match k with
      | 3%nat => group_rev ds' 1 (d :: ","%char :: acc)
      | _ => group_rev ds' (S k) (d :: acc)
      end
  end.

Definition group_thousands (s : string) : string :=
  String.string_of_list_ascii
    (group_rev (rev (String.list_ascii_of_string s)) 0 []).

Definition sign (s : bool) : string := if s then "-" else EmptyString.

(** [format(x, '.{digits}f')], and [format(x, ',.{digits}f')] when
    [grouping]: the exact value of [x] rounded half-even to [digits]
    decimals. *)
Definition format_f (grouping : bool) (digits : nat) (x : float) : string :=
  let unsigned (n : Z) :=
    let k := 10 ^ Z.of_nat digits in
    let int_part := digits_of (n / k) in
    let int_part := if grouping then group_thousands int_part else int_part in
    match digits with
    | O => int_part
    | _ => int_part +:+ "." +:+ zfill digits (digits_of (n mod k))
    end in
  match Prim2SF x with
  | S754_zero s => sign s +:+ unsigned 0
  | S754_infinity s => if s then "-inf" else "inf"
  | S754_nan => "nan"
  | S754_finite s m e =>
      sign s +:+ unsigned (scaled m e (10 ^ Z.of_nat digits))
  end.

(** [s.replace(a, b)] for one-character [a] and [b] *)
Fixpoint replace (a b : ascii) (s : string) : string :=
  match s with
  | EmptyString => EmptyString
  | String c s' => String (if Ascii.eqb c a then b else c) (replace a b s')
  end.

(** An argument of [str.format]: the labels pass floats and strings. *)
Inductive value :=
| Float (x : float)
| Str (s : string).

(** A replacement field [{v:.{digits}f}] or [{v:,.{digits}f}]: a string
    has no format code [f]. *)
Definition field_f (grouping : bool) (digits : nat) (v : value)
    : outcome string :=
  match v with
  | Float x => Ok (format_f grouping digits x)
  | Str _ => Raise ValueError
  end.

(** [x or default] for a float [x]: zero is false, nan is true. *)
Definition float_or (x : float) (default : value) : value :=
  if PrimFloat.eqb x 0 then default else Float x.

(** An integer ([int], numpy [int64]) converted to binary64, rounding to
    nearest even. *)
Definition float_of_Z (z : Z) : float :=
  SF2Prim (binary_normalize prec emax z 0 false).

(** An exception of a pure computation, raised inside a method. *)
Definition try {St A} (o : outcome A) : M St A := fun s => (o, s).

End Py.

Declare Scope py_scope.
Delimit Scope py_scope with py.
Notation "x <- c1 ;; c2" := (Py.bind c1 (fun x => c2))
  (at level 20, c1 at level 99, c2 at level 200, only parsing) : py_scope.
Notation "c1 ;; c2" := (Py.bind c1 (fun _ => c2))
  (at level 100, c2 at level 200, right associativity, only parsing) : py_scope.

(** ** The Qt value classes the graphics use *)

Module Qt.

(** [QLineF(x1, y1, x2, y2)] *)
Record QLineF := mkQLineF { x1 : float; y1 : float; x2 : float; y2 : float }.

Definition setLine (_ : QLineF) (a b c d : float) : QLineF := mkQLineF a b c d.

(** [QPointF(x, y)] *)
Record QPointF := mkQPointF { x : float; y : float }.

(** The size of a [QRectF], as [boundingRect()] returns it. *)
Record QRectF := mkQRectF { width : float; height : float }.

End Qt.

(** ** Bar graphics: [bars_from_ohlc] and [BarItems] *)

Module Bars.
Import Py Qt.
Local Open Scope float_scope.

(** One element of the [dtype=object] lines array: the integer [0] that
    [np.zeros_like] fills it with, [None], or a line. *)
Inductive cell :=
| Zero
| PyNone
| Line (q : QLineF).

Definition row : Type := cell * cell * cell.

(** One record of the OHLC structured array: the fields the graphics
    read, [index] an [int64] and the others [float64]. *)
Module Ohlc.
Record t := mk {
  index : Z;
  open : float;
  high : float;
  low : float;
  close : float;
  volume : float
}.
End Ohlc.

Definition _mk_lines_array (size : nat) : list row :=
  replicate size (Zero, Zero, Zero).

(** The body of the loop of [bars_from_ohlc] for one record. *)
Definition bar_lines (w : float) (q : Ohlc.t) : row :=
  let index := float_of_Z (Ohlc.index q) in
  let hl :=
    if negb (Ohlc.low q =? Ohlc.high q)
    then Line (mkQLineF index (Ohlc.low q) index (Ohlc.high q))
    else PyNone in
  let o := mkQLineF (index - w) (Ohlc.open q) index (Ohlc.open q) in
  let c := mkQLineF index (Ohlc.close q) (index + w) (Ohlc.close q) in
  (hl, Line o, Line c).

(** [for i, q in enumerate(data[start:], start=start): lines[i] = ...] *)
Fixpoint bars_loop (w : float) (i : nat) (qs : list Ohlc.t)
    (lines : list row) : list row :=
  match qs with
  | [] => lines
  | q :: qs' => bars_loop w (S i) qs' (<[i := bar_lines w q]> lines)
  end.

Definition bars_from_ohlc (data : list Ohlc.t) (w : float) (start : nat)
    : list row :=
  bars_loop w start (drop start data) (_mk_lines_array (length data)).

(** A [QPicture]: the objects handed to [QPainter.drawLines] by the last
    painter opened on it, and how many painters were opened on it.  Opening
    a painter on a picture discards what it held. *)
Record QPicture := mkQPicture { commands : list cell; paints : nat }.

Definition paint (pic : QPicture) (to_draw : list cell) : QPicture :=
  mkQPicture to_draw (S (paints pic)).

Definition is_line (c : cell) : bool :=
  match c with Line _ => true | _ => false end.

(** What [QPainter.drawLines] takes: one [QLineF] at least, and nothing
    but [QLineF]s. *)
Definition drawable (to_draw : list cell) : bool :=
  match to_draw with
  | [] => false
  | _ => forallb is_line to_draw
  end.

(** A [QPainter] is opened on [pic], and [drawLines] is called with the
    elements of [to_draw] as its arguments.  With no argument, or with one
    that is no line, [drawLines] raises [TypeError]; the picture, which the
    painter was opened on, then holds no line. *)
Definition drawLines (pic : QPicture) (to_draw : list cell)
    : outcome unit * QPicture :=
  if drawable to_draw then (Ok tt, paint pic to_draw)
  else (Raise TypeError, paint pic []).

Record BarItems := mkBarItems {
  w : float;
  last : QPicture;
  history : QPicture;
  lines : list row;
  index : Z
}.

Definition set_last (v : QPicture) (self : BarItems) : BarItems :=
  mkBarItems (w self) v (history self) (lines self) (index self).
Definition set_history (v : QPicture) (self : BarItems) : BarItems :=
  mkBarItems (w self) (last self) v (lines self) (index self).
Definition set_lines (v : list row) (self : BarItems) : BarItems :=
  mkBarItems (w self) (last self) (history self) v (index self).
Definition set_index (v : Z) (self : BarItems) : BarItems :=
  mkBarItems (w self) (last self) (history self) (lines self) v.

(** [BarItems.__init__]: empty pictures, 50e3 rows, cursor at 0. *)
Definition init : BarItems :=
  mkBarItems 0.43 (mkQPicture [] 0) (mkQPicture [] 0)
             (_mk_lines_array (Z.to_nat 50000)) 0.

(** [np.ravel] of a block of rows *)
Definition ravel (rows : list row) : list cell :=
  rows ≫= (fun r => [r.1.1; r.1.2; r.2]).

(** [flat != None], element by element *)
Definition not_None (c : cell) : bool :=
  match c with PyNone => false | _ => true end.

(** [iend or default]: [None] and [0] are both false. *)
Definition or_else (iend : option Z) (default : Z) : Z :=
  match iend with
  | Some v => if (v =? 0)%Z then default else v
  | None => default
  end.

Definition draw_lines (istart : Z) (iend : option Z) (just_history : bool)
    : M BarItems unit :=
  fun self =>
    if just_history then
      let iend := or_else iend (index self - 1) in
      let flat := ravel (slice (lines self) istart iend) in
      let to_draw := filter (fun c => not_None c = true) flat in
      let r := drawLines (history self) to_draw in
      (r.1, set_history r.2 self)
    else
      let istart := (index self - 1)%Z in
      let iend := or_else iend (index self) in
      let flat := ravel (slice (lines self) istart iend) in
      let to_draw := filter (fun c => not_None c = true) flat in
      let r := drawLines (last self) to_draw in
      (r.1, set_last r.2 self).

(** [self.lines[start:stop] = new]: numpy clips the slice to the array,
    copies when the shapes agree, repeats a single row over the slice, and
    raises [ValueError] otherwise. *)
Definition assign_rows (start stop : Z) (new : list row) : M BarItems unit :=
  fun self =>
    let a := bound (lines self) start in
    let m := (bound (lines self) stop - a)%nat in
    let put block :=
      set_lines (take a (lines self) ++ block ++ drop (a + m) (lines self))
                self in
    if decide (length new = m) then (Ok tt, put new)
    else match new with
         | [r] => (Ok tt, put (replicate m r))
         | _ => (Raise ValueError, self)
         end.

(** [self.lines[i][k] = v] *)
Definition set_cell (k : nat) (v : cell) (r : row) : row :=
  match k with
  | O => (v, r.1.2, r.2)
  | 1%nat => (r.1.1, v, r.2)
  | _ => (r.1.1, r.1.2, v)
  end.

Definition assign_cell (i : Z) (k : nat) (v : cell) : M BarItems unit :=
  fun self =>
    match position (lines self) i with
    | Some p =>
        (Ok tt, set_lines (alter (set_cell k v) p (lines self)) self)
    | None => (Raise IndexError, self)
    end.

(** [line.setLine(a, b, c, d)] on the object held in a cell: only a
    [QLineF] has the method. *)
Definition line_of (c : cell) : M BarItems QLineF :=
  match c with
  | Line q => ret q
  | _ => raise AttributeError
  end.

Local Open Scope py_scope.

(** The part of [update_from_array] under [# current bar update]; [index]
    is the local variable of that name, read from [self.index] when the
    method was entered. *)
Definition current_bar_update (index : Z) (array : list Ohlc.t)
    : M BarItems unit :=
  q <- lift IndexError (item array (-1)) ;;
  let i := Ohlc.index q in
  let o := Ohlc.open q in
  let h := Ohlc.high q in
  let l := Ohlc.low q in
  let last := Ohlc.close q in
  self_index <- gets Bars.index ;;
  if negb (i =? self_index - 1)%Z then raise AssertionError else
  lines <- gets lines ;;
  r <- lift IndexError (item lines i) ;;
  let body := r.1.1 in
  let larm := r.1.2 in
  let rarm := r.2 in
  ra <- line_of rarm ;;
  assign_cell i 2 (Line (setLine ra (x1 ra) last (x2 ra) last)) ;;
  la <- line_of larm ;;
  assign_cell i 1 (Line (setLine la (x1 la) o (x2 la) o)) ;;
  (if negb (l =? h) then
     match body with
     | PyNone =>
         assign_cell (index - 1) 0
           (Line (mkQLineF (float_of_Z i) l (float_of_Z i) h))
     | _ =>
         b <- line_of body ;;
         assign_cell i 0 (Line (setLine b (float_of_Z i) l (float_of_Z i) h))
     end
   else
     match body with
     | PyNone => ret tt
     | _ => assign_cell (index - 1) 0 PyNone
     end) ;;
  draw_lines 0 None false.

Definition update_from_array (array : list Ohlc.t) (just_history : bool)
    : M BarItems unit :=
  index <- gets index ;;
  let length := len array in
  let extra := (length - index)%Z in
  returned <-
    (if (0 <? extra)%Z then
       let new := slice array index (index + extra) in
       w <- gets w ;;
       let lines := bars_from_ohlc new w 0 in
       let bars_added := len lines in
       assign_rows index (index + bars_added) lines ;;
       modify (fun self => set_index (Bars.index self + bars_added) self) ;;
       draw_lines 0 None true ;;
       ret just_history
     else ret false) ;;
  if returned : bool then ret tt else current_bar_update index array.

(** *** What the statements below are written with *)

(** What [draw_lines] hands to the painter for a block of rows. *)
Definition compile (rows : list row) : list cell :=
  filter (fun c => not_None c = true) (ravel rows).

(** A row of a bar: a body or [None], and the two arms. *)
Definition is_bar_row (r : row) : bool :=
  match r with
  | (PyNone, Line _, Line _) | (Line _, Line _, Line _) => true
  | _ => false
  end.

(** Every row of the table below the cursor is the row of a bar. *)
Definition shows_bars (self : BarItems) : Prop :=
  forall k r, (k < Z.to_nat (index self))%nat ->
              lines self !! k = Some r -> is_bar_row r = true.

(** The row that the current-bar update leaves for the record [q] in
    place of the bar row [r]. *)
Definition updated_row (q : Ohlc.t) (r : row) : row :=
  let i := float_of_Z (Ohlc.index q) in
  (if Ohlc.low q =? Ohlc.high q then PyNone
   else Line (mkQLineF i (Ohlc.low q) i (Ohlc.high q)),
   match r.1.2 with
   | Line la => Line (mkQLineF (x1 la) (Ohlc.open q) (x2 la) (Ohlc.open q))
   | c => c
   end,
   match r.2 with
   | Line ra => Line (mkQLineF (x1 ra) (Ohlc.close q) (x2 ra) (Ohlc.close q))
   | c => c
   end).

(** The table once the records of [array] beyond the cursor were written
    at the cursor. *)
Definition appended (self : BarItems) (array : list Ohlc.t) : list row :=
  let n := Z.to_nat (index self) in
  take n (lines self) ++ map (bar_lines (w self)) (drop n array)
    ++ drop (length array) (lines self).

(** The state after the first half of [update_from_array], when the
    records beyond the cursor fit the table: the rows are written, the
    cursor is at the end of [array] and the history is painted again. *)
Definition appended_state (self : BarItems) (array : list Ohlc.t)
    : BarItems :=
  let lines' := appended self array in
  mkBarItems (w self) (last self)
    (paint (history self) (compile (take (length array - 1) lines')))
    lines' (len array).

(** Three bars [(index, open, high, low, close)]: a rising one, a flat one
    and another rising one. *)
Definition scenario : list Ohlc.t :=
  [Ohlc.mk 0 10 12 9 11 0; Ohlc.mk 1 11 11 11 11 0; Ohlc.mk 2 11 14 10 13 0].


(** A new [BarItems] after the first two bars of the scenario, and after
    all three. *)
Definition two_bars : BarItems :=
  (update_from_array (take 2 scenario) false init).2.
Definition three_bars : BarItems :=
  (update_from_array scenario false init).2.

End Bars.

(** ** The crosshair: [CrossHair] *)

Module Cross.
Import Py Qt.
Local Open Scope float_scope.
Local Open Scope py_scope.

(** A [ChartPlotWidget], named by a key: it is used as one in
    [self.graphics]. *)
Definition plot : Type := nat.

(** A [dict]: keys in insertion order, a key set again keeps its place. *)
Definition dict (V : Type) : Type := list (plot * V).

Fixpoint dict_get {V} (k : plot) (d : dict V) : option V :=
  match d with
  | [] => None
  | (k', v) :: d' => if decide (k = k') then Some v else dict_get k d'
  end.

Fixpoint dict_set {V} (k : plot) (v : V) (d : dict V) : dict V :=
  match d with
  | [] => [(k, v)]
  | (k', v') :: d' =>
      if decide (k = k') then (k, v) :: d' else (k', v') :: dict_set k v d'
  end.

Fixpoint dict_alter {V} (f : V -> V) (k : plot) (d : dict V) : dict V :=
  match d with
  | [] => []
  | (k', v') :: d' =>
      if decide (k = k') then (k', f v') :: d'
      else (k', v') :: dict_alter f k d'
  end.

(** A [pg.InfiniteLine]: the coordinate it sits at, and whether it shows. *)
Record InfiniteLine := mkInfiniteLine { pos : float; visible : bool }.

Definition setPos (v : float) (l : InfiniteLine) : InfiniteLine :=
  mkInfiniteLine v (visible l).
Definition line_show (b : bool) (l : InfiniteLine) : InfiniteLine :=
  mkInfiniteLine (pos l) b.

(** Modelled from the spec: [YAxisLabel] and [XAxisLabel] of [_axes.py],
    which is not part of the sources.  An axis label is shown or hidden,
    sits at a position, and [update_label(abs_pos, value)] moves it to
    [abs_pos] and gives it the text of [value]. *)
Record AxisLabel := mkAxisLabel {
  shown : bool;
  place : QPointF;
  value : option float
}.

Definition update_label (abs_pos : QPointF) (v : float) (l : AxisLabel)
    : AxisLabel :=
  mkAxisLabel (shown l) abs_pos (Some v).
Definition label_show (b : bool) (l : AxisLabel) : AxisLabel :=
  mkAxisLabel b (place l) (value l).

(** One value of [self.graphics]: the lines, the y-axis label and the
    [index] of every [LineDot] under ['cursors']. *)
Record opts := mkOpts {
  vl : InfiniteLine;
  hl : InfiniteLine;
  yl : AxisLabel;
  cursors : list Z
}.

Definition set_vl (v : InfiniteLine) (o : opts) : opts :=
  mkOpts v (hl o) (yl o) (cursors o).
Definition set_hl (v : InfiniteLine) (o : opts) : opts :=
  mkOpts (vl o) v (yl o) (cursors o).
Definition set_yl (v : AxisLabel) (o : opts) : opts :=
  mkOpts (vl o) (hl o) v (cursors o).
Definition set_cursors (v : list Z) (o : opts) : opts :=
  mkOpts (vl o) (hl o) (yl o) v.

Record CrossHair := mkCrossHair {
  graphics : dict opts;
  plots : list plot;
  active_plot : option plot;
  digits : nat;
  _lastx : option Z;
  xaxis_label : option AxisLabel;
  (** Modelled from the spec: [ChartPlotWidget.update_contents_labels]
      of [_chart.py], which is not part of the sources: the bar index
      each chart was last asked to show in its contents labels. *)
  contents : dict Z
}.

Definition set_graphics (v : dict opts) (self : CrossHair) : CrossHair :=
  mkCrossHair v (plots self) (active_plot self) (digits self) (_lastx self)
              (xaxis_label self) (contents self).
Definition set_plots (v : list plot) (self : CrossHair) : CrossHair :=
  mkCrossHair (graphics self) v (active_plot self) (digits self)
              (_lastx self) (xaxis_label self) (contents self).
Definition set_active_plot (v : option plot) (self : CrossHair) : CrossHair :=
  mkCrossHair (graphics self) (plots self) v (digits self) (_lastx self)
              (xaxis_label self) (contents self).
Definition set_lastx (v : option Z) (self : CrossHair) : CrossHair :=
  mkCrossHair (graphics self) (plots self) (active_plot self) (digits self)
              v (xaxis_label self) (contents self).
Definition set_xaxis_label (v : option AxisLabel) (self : CrossHair)
    : CrossHair :=
  mkCrossHair (graphics self) (plots self) (active_plot self) (digits self)
              (_lastx self) v (contents self).
Definition set_contents (v : dict Z) (self : CrossHair) : CrossHair :=
  mkCrossHair (graphics self) (plots self) (active_plot self) (digits self)
              (_lastx self) (xaxis_label self) v.

(** [CrossHair.__init__] *)
Definition init (digits : nat) : CrossHair :=
  mkCrossHair [] [] None digits None None [].

(** [self.graphics[plot]]: [KeyError] for a plot never added. *)
Definition graphics_item (p : plot) : M CrossHair opts :=
  g <- gets graphics ;; lift KeyError (dict_get p g).

(** [self.graphics[plot][...]] changed in place *)
Definition on_graphics (p : plot) (f : opts -> opts) : M CrossHair unit :=
  _ <- graphics_item p ;;
  modify (fun self => set_graphics (dict_alter f p (graphics self)) self).

Inductive action := Enter | Leave.

Definition mouseAction (a : action) (p : plot) : M CrossHair unit :=
  match a with
  | Enter =>
      modify (set_active_plot (Some p)) ;;
      on_graphics p (fun o => set_hl (line_show true (hl o)) o) ;;
      on_graphics p (fun o => set_yl (label_show true (yl o)) o)
  | Leave =>
      modify (set_active_plot None) ;;
      on_graphics p (fun o => set_hl (line_show false (hl o)) o) ;;
      on_graphics p (fun o => set_yl (label_show false (yl o)) o)
  end.

(** What the loop of [mouseMoved] does to one entry of [self.graphics]. *)
Definition snap (ix : Z) (o : opts) : opts :=
  set_cursors (map (fun _ => ix) (cursors o))
              (set_vl (setPos (float_of_Z ix) (vl o)) o).

(** The loop variable after [for plot, opts in self.graphics.items()]:
    the last key, or the value it had before over an empty dict. *)
Definition last_key {V} (d : dict V) (before : plot) : plot :=
  match list.last d with
  | Some (k, _) => k
  | None => before
  end.

Section Charts.

(** The coordinate transforms of the charts, [plot.mapToView] and
    [plot.mapFromView]. *)
Variable mapToView : plot -> QPointF -> QPointF.
Variable mapFromView : plot -> QPointF -> QPointF.

Definition add_plot (p : plot) (digits : nat) : M CrossHair unit :=
  let vl := mkInfiniteLine 0 true in
  let hl := line_show false (mkInfiniteLine 0 true) in
  let yl := label_show false (mkAxisLabel true (mkQPointF 0 0) None) in
  modify (fun self =>
            set_graphics (dict_set p (mkOpts vl hl yl []) (graphics self))
                         self) ;;
  modify (fun self => set_plots (plots self ++ [p]) self) ;;
  ps <- gets plots ;;
  first <- lift IndexError (item ps 0) ;;
  modify (set_xaxis_label
            (Some (mkAxisLabel true
                     (mapFromView first (mkQPointF 0 0)) None))).

(** [add_curve_cursor]: a [LineDot] at the index of the last datum of
    the chart. *)
Definition add_curve_cursor (p : plot) (last_index : Z) : M CrossHair unit :=
  on_graphics p (fun o => set_cursors (cursors o ++ [last_index]) o).

Definition mouseMoved (pos : QPointF) : M CrossHair unit :=
  active <- gets active_plot ;;
  match active with
  | None => ret tt
  | Some plot =>
      let mouse_point := mapToView plot pos in
      let x := x mouse_point in
      let y := y mouse_point in
      on_graphics plot (fun o => set_hl (setPos y (hl o)) o) ;;
      on_graphics plot (fun o => set_yl (update_label pos y (yl o)) o) ;;
      lastx <- gets _lastx ;;
      ix <- try (round x) ;;
      (if decide (Some ix = lastx) then ret tt
       else
         g <- gets graphics ;;
         modify (set_graphics (map (fun kv => (kv.1, snap ix kv.2)) g)) ;;
         modify (fun self =>
                   set_contents
                     (foldl (fun c kv => dict_set kv.1 ix c)
                            (contents self) g)
                     self) ;;
         let plot := last_key g plot in
         xl <- gets xaxis_label ;;
         xl <- lift AttributeError xl ;;
         modify (set_xaxis_label
                   (Some (update_label
                            (mapFromView plot
                                         (mkQPointF (float_of_Z ix) y))
                            x xl)))) ;;
      modify (set_lastx (Some ix))
  end.

End Charts.

(** What every [mouseMoved] over an active plot does to that plot's entry:
    the horizontal line and the y-axis label follow the pointer. *)
Definition follow (pos : QPointF) (y : float) (o : opts) : opts :=
  set_yl (update_label pos y (yl o)) (set_hl (setPos y (hl o)) o).

(** Charts whose view coordinates are those of the scene. *)
Definition scene (p : plot) (q : QPointF) : QPointF := q.

(** Charts 1 and 2 added to a new crosshair, chart 1 with a curve cursor;
    the pointer has entered chart 1. *)
Definition two_charts : CrossHair :=
  ((add_plot scene 1%nat 0%nat ;; add_plot scene 2%nat 0%nat ;;
    add_curve_cursor 1%nat 5%Z ;; mouseAction Enter 1%nat) (init 2)).2.

(** The pointer then enters chart 2, and no leave of chart 1 came. *)
Definition entered_twice : CrossHair :=
  (mouseAction Enter 2%nat two_charts).2.

End Cross.

(** ** Labels: [ContentsLabel], [LevelLabel], [L1Label] and [LevelLine] *)

Module Labels.
Import Py Qt.
Local Open Scope float_scope.
Local Open Scope py_scope.

(** One record of the structured array behind a chart: its [index] and
    its named [float64] fields. *)
Module Datum.
Record t := mk { index : Z; fields : list (string * float) }.

Fixpoint lookup (name : string) (fs : list (string * float))
    : option float :=
  match fs with
  | [] => None
  | (n, v) :: fs' => if decide (name = n) then Some v else lookup name fs'
  end.

(** [row[name]]: numpy raises [ValueError] for a field that is not there. *)
Definition field (name : string) (row : t) : option float :=
  lookup name (fields row).
End Datum.

(** A [ContentsLabel]: the text [setText] gave it last. *)
Record ContentsLabel := mkContentsLabel { text : string }.

Definition setText (s : string) : M ContentsLabel unit :=
  modify (fun _ => mkContentsLabel s).

Definition update_from_value (name : string) (index : Z)
    (array : list Datum.t) : M ContentsLabel unit :=
  r0 <- lift IndexError (item array 0) ;;
  let first := Datum.index r0 in
  rl <- lift IndexError (item array (-1)) ;;
  if ((index <? Datum.index rl) && (index >? first))%Z then
    row <- lift IndexError (item array (index - first)) ;;
    data <- lift ValueError (Datum.field name row) ;;
    setText (name +:+ ": " +:+ format_f false 2 data)
  else ret tt.

Inductive orient_v := top | bottom | middle.
Inductive orient_h := left | right.

(** The class of a label object, which picks its [set_label_str]. *)
Inductive class := LevelLabel_class | L1Label_class.

(** A [LevelLabel] or an [L1Label].  [rect] is modelled from the spec:
    the bounding box of [YSticky] in [_axes.py], which is not part of the
    sources; it is measured once against a representative string and is
    what [boundingRect()] returns. *)
Record LevelLabel := mkLevelLabel {
  cls : class;
  digits : nat;
  label_str : string;
  rect : QRectF;
  pos : QPointF;
  level : float;
  _orient_v : orient_v;
  _orient_h : orient_h;
  _v_shift : float;
  _h_shift : float;
  size : float;
  size_digits : nat
}.

Definition set_label_str_field (v : string) (self : LevelLabel) : LevelLabel :=
  mkLevelLabel (cls self) (digits self) v (rect self) (pos self)
               (level self) (_orient_v self) (_orient_h self)
               (_v_shift self) (_h_shift self) (size self)
               (size_digits self).
Definition set_pos (v : QPointF) (self : LevelLabel) : LevelLabel :=
  mkLevelLabel (cls self) (digits self) (label_str self) (rect self) v
               (level self) (_orient_v self) (_orient_h self)
               (_v_shift self) (_h_shift self) (size self)
               (size_digits self).
Definition set_level_field (v : float) (self : LevelLabel) : LevelLabel :=
  mkLevelLabel (cls self) (digits self) (label_str self) (rect self)
               (pos self) v (_orient_v self) (_orient_h self)
               (_v_shift self) (_h_shift self) (size self)
               (size_digits self).

(** The two tables of [LevelLabel.__init__] *)
Definition v_shift_of (o : orient_v) : float :=
  match o with top => 1 | bottom => 0 | middle => 1 / 2 end.
Definition h_shift_of (o : orient_h) : float :=
  match o with left => -1 | right => 0 end.

(** [LevelLabel.__init__] on a label whose text, box and position the
    base class has set up. *)
Definition new (c : class) (digits : nat) (label_str : string)
    (rect : QRectF) (pos : QPointF) (ov : orient_v) (oh : orient_h)
    : LevelLabel :=
  mkLevelLabel c digits label_str rect pos 0 ov oh
               (v_shift_of ov) (h_shift_of oh) 0 3.

(** [LevelLabel.set_label_str] *)
Definition LevelLabel_set_label_str (level : float) : M LevelLabel unit :=
  digits <- gets digits ;;
  let s := format_f false digits level in
  modify (set_label_str_field (replace "," " " s)).

(** [L1Label.set_label_str] *)
Definition L1Label_set_label_str (level : float) : M LevelLabel unit :=
  size_digits <- gets size_digits ;;
  size <- gets size ;;
  digits <- gets digits ;;
  s1 <- try (field_f false size_digits (float_or size (Str "?"))) ;;
  s2 <- try (field_f true digits (Float level)) ;;
  modify (set_label_str_field (replace "," " " (s1 +:+ " x " +:+ s2))).

(** [self.set_label_str(level)], by the class of [self] *)
Definition set_label_str (level : float) : M LevelLabel unit :=
  c <- gets cls ;;
  match c with
  | LevelLabel_class => LevelLabel_set_label_str level
  | L1Label_class => L1Label_set_label_str level
  end.

(** Modelled from the spec: [boundingRect] of [YSticky] in [_axes.py],
    which is not part of the sources: the box measured at creation, which
    a value update does not change. *)
Definition boundingRect : M LevelLabel QRectF := gets rect.

Definition update_label (abs_pos : QPointF) (level : float) (offset : float)
    : M LevelLabel unit :=
  set_label_str level ;;
  br <- boundingRect ;;
  let h := height br in
  let w := width br in
  h_shift <- gets _h_shift ;;
  v_shift <- gets _v_shift ;;
  modify (set_pos (mkQPointF (h_shift * w - offset)
                             (y abs_pos - (v_shift * h) - offset))) ;;
  modify (set_level_field level).

(** A [LevelLine]: its label and the value the line sits at. *)
Record LevelLine := mkLevelLine { label : LevelLabel; value : float }.

(** A method of the label, run on [self.label]. *)
Definition on_label {A} (c : M LevelLabel A) : M LevelLine A :=
  fun self =>
    let r := c (label self) in (r.1, mkLevelLine r.2 (value self)).

Section Chart.

(** The coordinate transform of the chart of the label,
    [self._chart.mapFromView]. *)
Variable mapFromView : QPointF -> QPointF.

(** Modelled from the spec: [update_from_data] of [YSticky] in
    [_axes.py], which is not part of the sources: the label is updated
    for [value] at the place the chart maps [(index, value)] to. *)
Definition update_from_data (index : Z) (value : float)
    : M LevelLabel unit :=
  update_label (mapFromView (mkQPointF (float_of_Z index) value)) value 1.

Definition set_level (_ : float) : M LevelLine unit :=
  v <- gets value ;;
  on_label (update_from_data 0 v).

(** A drag of the line to [newLevel]: [pg.InfiniteLine] takes the new
    value and emits [sigPositionChanged], which [__init__] connected to
    [set_level]. *)
Definition drag (newLevel : float) : M LevelLine unit :=
  modify (fun self => mkLevelLine (label self) newLevel) ;;
  set_level newLevel.

End Chart.

(** A chart whose view coordinates are those of the scene. *)
Definition to_scene (q : QPointF) : QPointF := q.

(** A level line at 100 with a two-decimal label, left of the axis, in a
    box of 40 by 12. *)
Definition line_at_100 : LevelLine :=
  mkLevelLine (new LevelLabel_class 2 "100.00" (mkQRectF 40 12)
                   (mkQPointF 0 0) bottom left)
              100.

(** A new bid label: its size is the 0 of the class. *)
Definition bid_label : LevelLabel :=
  new L1Label_class 2 EmptyString (mkQRectF 90 12) (mkQPointF 0 0)
      bottom left.

(** Four rows of an indicator, numbered 10 to 13. *)
Definition rsi_rows : list Datum.t :=
  [Datum.mk 10 [("rsi", 1.5)]; Datum.mk 11 [("rsi", 2.5)];
   Datum.mk 12 [("rsi", 3.25)]; Datum.mk 13 [("rsi", 4)]].

End Labels.

(** ** [L1Label.set_label_str] of [piker/ui/_graphics.py] *)

Module Legacy.
Import Py Qt Labels.
Local Open Scope py_scope.

Section Str.

(** [str(x)] of a float, which a field without a format gives. *)
Variable float_str : float -> string.

Definition plain_field (v : Py.value) : string :=
  match v with Float x => float_str x | Str s => s end.

Definition L1Label_set_label_str (level : float) : M LevelLabel unit :=
  size <- gets size ;;
  digits <- gets digits ;;
  let s1 := plain_field (float_or size (Str "?")) in
  s2 <- try (field_f true digits (Float level)) ;;
  modify (set_label_str_field (replace "," " " (s1 +:+ " x " +:+ s2))).

End Str.

End Legacy.

(** ** More of [BarItems]: the first draw and [paint] *)

Module BarsDraw.
Import Py Qt Bars.
Local Open Scope py_scope.

(** [BarItems.draw_from_data] *)
Definition draw_from_data (data : list Ohlc.t) (start : nat)
    : M BarItems unit :=
  w <- gets w ;;
  let lines := bars_from_ohlc data w start in
  let index := len lines in
  assign_rows 0 index lines ;;
  modify (set_index index) ;;
  self_index <- gets Bars.index ;;
  draw_lines 0 (Some (self_index - 1)%Z) true ;;
  self_index <- gets Bars.index ;;
  draw_lines 0 (Some self_index) false.

(** [BarItems.paint]: the history picture is drawn, then the picture of
    the last bar; this is what reaches the painter of the view. *)
Definition paint (self : BarItems) : list cell :=
  commands (history self) ++ commands (last self).

(** The graphics show [array]: the cursor is at its end, the first rows of
    the table are the lines of its records, the history picture holds the
    lines of all records but the last and the other picture those of the
    last, and the last record is numbered by its place. *)
Record in_sync (self : BarItems) (array : list Ohlc.t) : Prop := mk_in_sync {
  sync_index : index self = len array;
  sync_fits : (length array <= length (lines self))%nat;
  sync_last : Ohlc.index <$> list.last array = Some (len array - 1)%Z;
  sync_lines :
    take (length array) (lines self) = map (bar_lines (w self)) array;
  sync_history :
    commands (history self)
    = compile (map (bar_lines (w self)) (take (length array - 1) array));
  sync_picture :
    commands (Bars.last self)
    = compile (map (bar_lines (w self)) (drop (length array - 1) array))
}.

(** A new [BarItems] after the first draw of the first two bars of the
    scenario. *)
Definition drawn : BarItems := (draw_from_data (take 2 scenario) 0 init).2.

(** One record more than the table of a new [BarItems] has rows. *)
Definition overlong : list Ohlc.t :=
  replicate (Z.to_nat 50001) (Ohlc.mk 0 1 1 1 1 0).

End BarsDraw.

(** ** The events that reach a [CrossHair] *)

Module CrossEvents.
Import Py Qt Cross.
Local Open Scope py_scope.

(** A call of a method of the crosshair: by the code that builds the
    charts ([add_plot], [add_curve_cursor]) or by one of the signals that
    [add_plot] connects ([mouseAction], [mouseMoved]). *)
Inductive event :=
| AddPlot (p : plot) (digits : nat)
| AddCurveCursor (p : plot) (last_index : Z)
| MouseAction (a : action) (p : plot)
| MouseMoved (pos : QPointF).

Section Charts.

Variable mapToView : plot -> QPointF -> QPointF.
Variable mapFromView : plot -> QPointF -> QPointF.

Definition handle (ev : event) : M CrossHair unit :=
  match ev with
  | AddPlot p digits => add_plot mapFromView p digits
  | AddCurveCursor p last_index => add_curve_cursor p last_index
  | MouseAction a p => mouseAction a p
  | MouseMoved pos => mouseMoved mapToView mapFromView pos
  end.

(** The states of a crosshair: a new one, and the one any call leaves,
    whether it returned or raised.  The enter and leave signals of a plot
    are connected by [add_plot], so they come from added plots only. *)
Inductive reachable : CrossHair -> Prop :=
| reachable_init digits : reachable (init digits)
| reachable_handle ev self :
    reachable self ->
    (forall a p, ev = MouseAction a p ->
                 is_Some (dict_get p (graphics self))) ->
    reachable (handle ev self).2.

End Charts.

(** The plots of [self.graphics], in the order of the dict. *)
Definition keys {V} (d : dict V) : list plot := map fst d.

(** The entry [add_plot] makes for a plot. *)
Definition new_opts : opts :=
  mkOpts (mkInfiniteLine 0 true) (mkInfiniteLine 0 false)
         (mkAxisLabel false (mkQPointF 0 0) None) [].

(** Chart 2 shown 100 below chart 1 in the scene. *)
Definition stacked (p : plot) (q : QPointF) : QPointF :=
  match p with
  | 2%nat => mkQPointF (x q) (y q + 100)
  | _ => q
  end.

(** A new crosshair with chart 1 added. *)
Definition one_chart : CrossHair := (add_plot scene 1%nat 0%nat (init 2)).2.

(** The two charts after the pointer moved to x = 3.2 over chart 1. *)
Definition snapped : CrossHair :=
  (mouseMoved scene scene (mkQPointF 3.2 10) two_charts).2.

End CrossEvents.

(** ** The older [ContentsLabel] of [_graphics.py] *)

Module LegacyContents.
Import Py Qt Labels.
Local Open Scope py_scope.

(** [ContentsLabel.update_from_value] of [_graphics.py]: the row is read at
    the position [index], with no test of the index. *)
Definition update_from_value (name : string) (index : Z)
    (array : list Datum.t) : M ContentsLabel unit :=
  row <- lift IndexError (item array index) ;;
  data <- lift ValueError (Datum.field name row) ;;
  setText (name +:+ ": " +:+ format_f false 2 data).

End LegacyContents.

(** ** What the statements on the labels are written with *)

Module LabelScenes.
Import Py Qt Labels.

(** The rows of an array are numbered one after the other from the index
    of the first. *)
Definition contiguous (array : list Datum.t) : Prop :=
  forall k r0 row,
    array !! 0%nat = Some r0 -> array !! k = Some row ->
    Datum.index row = (Datum.index r0 + Z.of_nat k)%Z.

(** The character is one of the string. *)
Definition occurs (c : ascii) (s : string) : Prop :=
  In c (String.list_ascii_of_string s).

(** An ask label with 100 in the queue. *)
Definition ask_label : LevelLabel :=
  mkLevelLabel L1Label_class 2 EmptyString (mkQRectF 90 12) (mkQPointF 0 0)
               0 top left 1 (-1) 100 0.

(** Two rows numbered 10 and 50. *)
Definition gap_rows : list Datum.t :=
  [Datum.mk 10 [("rsi", 1.5%float)]; Datum.mk 50 [("rsi", 2.5%float)]].

End LabelScenes.

(** ** Broker responses: [resproc] of [piker/brokers/_util.py] *)

Module Brokers.
Local Open Scope Z_scope.

Section Resproc.

(** The decoded content of a response. *)
Variable J : Type.

(** A response of the HTTP client: [json] is what [resp.json()] returns,
    [None] when it raises. *)
Record Response := mkResponse {
  status_code : Z;
  body : string;
  text : string;
  json : option J
}.

Inductive error :=
| BrokerError (msg : string)
| UnboundLocalError.

Inductive returned :=
| Json (j : J)
| Resp (resp : Response).

(** The calls of the logger: [log.exception] and [log.trace]. *)
Inductive logged :=
| Exception (resp : Response)
| Trace (j : J).

(** [resproc] assigns the name [json], which makes it a local variable of
    the whole function: [local_json] is its value, [None] before the
    assignment.  The [except] clause names [json.decoder.JSONDecodeError]
    and so reads the local variable. *)
Definition resproc (resp : Response) (return_json : bool)
    : (error + returned) * list logged :=
  if negb (status_code resp =? 200) then (inl (BrokerError (body resp)), [])
  else
    let local_json : option J := None in
    match json resp with
    | Some j =>
        let local_json := Some j in
        match local_json with
        | Some j' => (inr (if return_json then Json j' else Resp resp),
                      [Trace j])
        | None => (inl UnboundLocalError, [Trace j])
        end
    | None =>
        match local_json with
        | Some _ => (inl (BrokerError (text resp)), [Exception resp])
        | None => (inl UnboundLocalError, [])
        end
    end.

End Resproc.

Arguments mkResponse {J} _ _ _ _.
Arguments status_code {J} _.
Arguments body {J} _.
Arguments text {J} _.
Arguments json {J} _.
Arguments Json {J} _.
Arguments Resp {J} _.
Arguments Exception {J} _.
Arguments Trace {J} _.
Arguments resproc {J} _ _.

End Brokers.

(** * Proofs *)

(** ** Python subscripts and slices *)

Section PyFacts.
Import Py.
Local Open Scope Z_scope.
Context {A : Type}.
Implicit Types l : list A.

Lemma position_nonneg l i :
  0 <= i < len l -> position l i = Some (Z.to_nat i).
Proof.
  intros H. unfold position.
  destruct (Z.ltb_spec i 0); [lia|].
  destruct (Z.leb_spec 0 i); [|lia].
  destruct (Z.ltb_spec i (len l)); [done|lia].
Qed.

Lemma position_lt l i p : position l i = Some p -> (p < length l)%nat.
Proof.
  unfold position, len.
  destruct (Z.ltb_spec i 0);
    repeat (case_match; try done); intros [= <-];
    apply andb_prop in H0 as [?%Z.leb_le ?%Z.ltb_lt]; lia.
Qed.

Lemma item_nonneg l i :
  0 <= i -> item l i = l !! Z.to_nat i.
Proof.
  intros H. unfold item.
  destruct (Z.lt_ge_cases i (len l)) as [Hlt|Hge].
  - by rewrite position_nonneg.
  - unfold position.
    destruct (Z.ltb_spec i 0); [lia|].
    destruct (Z.ltb_spec i (len l)); [lia|].
    rewrite andb_false_r. simpl.
    symmetry. apply lookup_ge_None. unfold len in Hge. lia.
Qed.

Lemma item_last l x : item l (-1) = Some x -> list.last l = Some x.
Proof.
  unfold item, position, len. simpl.
  destruct (Z.leb_spec 0 (-1 + Z.of_nat (length l))); simpl; [|done].
  destruct (Z.ltb_spec (-1 + Z.of_nat (length l)) (Z.of_nat (length l)));
    simpl; [|done].
  rewrite last_lookup. intros <-. f_equal. lia.
Qed.

Lemma last_item l x : list.last l = Some x -> item l (-1) = Some x.
Proof.
  rewrite last_lookup. intros Hl.
  assert (pred (length l) < length l)%nat by (by eapply lookup_lt_Some).
  unfold item, position, len. simpl.
  destruct (Z.leb_spec 0 (-1 + Z.of_nat (length l))); [|lia].
  destruct (Z.ltb_spec (-1 + Z.of_nat (length l)) (Z.of_nat (length l)));
    [|lia].
  simpl. rewrite <- Hl. f_equal. lia.
Qed.

Lemma bound_nonneg l i :
  0 <= i -> bound l i = Z.to_nat (Z.min (len l) i).
Proof.
  intros H. unfold bound. destruct (Z.ltb_spec i 0); [lia|]. f_equal. lia.
Qed.

(** [l[a:b]] for bounds in range *)
Lemma slice_in_range l (a b : nat) :
  (a <= b <= length l)%nat ->
  slice l (Z.of_nat a) (Z.of_nat b) = take (b - a) (drop a l).
Proof.
  intros H. unfold slice. rewrite !bound_nonneg by lia. unfold len.
  replace (Z.to_nat (Z.min (Z.of_nat (length l)) (Z.of_nat a))) with a by lia.
  replace (Z.to_nat (Z.min (Z.of_nat (length l)) (Z.of_nat b))) with b by lia.
  done.
Qed.

Lemma slice_prefix l (b : nat) :
  (b <= length l)%nat -> slice l 0 (Z.of_nat b) = take b l.
Proof.
  intros H. change 0 with (Z.of_nat 0).
  rewrite slice_in_range by lia.
  by rewrite Nat.sub_0_r, drop_0.
Qed.

Lemma slice_one l (p : nat) x :
  l !! p = Some x -> slice l (Z.of_nat p) (Z.of_nat (S p)) = [x].
Proof.
  intros H. pose proof (lookup_lt_Some _ _ _ H).
  rewrite slice_in_range by lia.
  replace (S p - p)%nat with 1%nat by lia.
  by rewrite (drop_S _ _ _ H).
Qed.

End PyFacts.

(** ** Bar graphics *)

Section BarFacts.
Import Py Qt Bars.
Local Open Scope Z_scope.

Ltac bar_simpl :=
  cbn [last lines index w history
       set_last set_lines set_index set_history].

Lemma bars_loop_spec w qs : forall i ls,
  length ls = (i + length qs)%nat ->
  bars_loop w i qs ls = take i ls ++ map (bar_lines w) qs.
Proof.
  induction qs as [|q qs IH]; intros i ls Hlen; simpl in *.
  - rewrite app_nil_r, take_ge; [done|lia].
  - rewrite IH by (rewrite length_insert; lia).
    rewrite (take_S_r _ _ (bar_lines w q)).
    + rewrite take_insert_ge by lia. by rewrite <- app_assoc.
    + apply list_lookup_insert_eq. lia.
Qed.

(** With [start = 0] every record gets its three lines, in order. *)
Lemma bars_from_ohlc_map data w :
  bars_from_ohlc data w 0 = map (bar_lines w) data.
Proof.
  unfold bars_from_ohlc. rewrite drop_0, bars_loop_spec.
  - done.
  - unfold _mk_lines_array. by rewrite length_replicate.
Qed.

Lemma bars_from_ohlc_length data w :
  length (bars_from_ohlc data w 0) = length data.
Proof. by rewrite bars_from_ohlc_map, length_map. Qed.

Lemma alter_lookup_insert {A} (f : A -> A) (l : list A) p x :
  l !! p = Some x -> alter f p l = <[p := f x]> l.
Proof.
  revert p. induction l as [|y l IH]; intros [|p] H; simplify_eq/=; [done|].
  f_equal. by apply IH.
Qed.

(** [self.lines[i][k] = v] on a row that is there. *)
Lemma assign_cell_ok self i k v r :
  0 <= i ->
  lines self !! Z.to_nat i = Some r ->
  assign_cell i k v self =
    (Ok tt, set_lines (<[Z.to_nat i := set_cell k v r]> (lines self)) self).
Proof.
  intros Hi Hr. pose proof (lookup_lt_Some _ _ _ Hr).
  unfold assign_cell. rewrite position_nonneg by (unfold len; lia).
  by rewrite (alter_lookup_insert _ _ _ _ Hr).
Qed.

Lemma compile_one r :
  compile [r] = filter (fun c => not_None c = true) [r.1.1; r.1.2; r.2].
Proof. by destruct r as [[a b] c]. Qed.

Lemma compile_cons r rows : compile (r :: rows) = compile [r] ++ compile rows.
Proof.
  unfold compile, ravel. change (r :: rows) with ([r] ++ rows).
  by rewrite bind_app, filter_app.
Qed.

Lemma forallb_is_line_compile rows :
  (forall r, r ∈ rows -> is_bar_row r = true) ->
  forallb is_line (compile rows) = true.
Proof.
  induction rows as [|r rows IH]; intros Hbars; [done|].
  rewrite compile_cons, forallb_app, IH, andb_true_r.
  - assert (is_bar_row r = true) as Hr by (apply Hbars; left).
    by destruct r as [[[] []] []].
  - intros r' Hr'. apply Hbars. by right.
Qed.

(** The rows of bars, one at least, give [drawLines] what it takes. *)
Lemma drawable_compile rows :
  rows <> [] ->
  (forall r, r ∈ rows -> is_bar_row r = true) ->
  drawable (compile rows) = true.
Proof.
  intros Hne Hbars.
  pose proof (forallb_is_line_compile rows Hbars) as Hall.
  destruct rows as [|r rows]; [done|].
  assert (is_bar_row r = true) as Hr by (apply Hbars; left).
  rewrite compile_cons in *.
  destruct r as [[[] []] []]; try done.
Qed.

(** [draw_lines()] for the last bar: the picture [last] is painted again
    with the lines of the row under the cursor. *)
Lemma draw_lines_last self r :
  1 <= index self ->
  lines self !! Z.to_nat (index self - 1) = Some r ->
  is_bar_row r = true ->
  draw_lines 0 None false self =
    (Ok tt, set_last (paint (last self) (compile [r])) self).
Proof.
  intros Hi Hr Hbar.
  assert (slice (lines self) (index self - 1) (index self) = [r]) as Hslice.
  { replace (index self) with (Z.of_nat (S (Z.to_nat (index self - 1))))
      at 2 by lia.
    replace (index self - 1) with (Z.of_nat (Z.to_nat (index self - 1)))
      at 1 by lia.
    by apply slice_one. }
  unfold draw_lines, or_else.
  destruct (Z.eqb_spec (index self) 0); [lia|].
  rewrite Hslice. fold (compile [r]).
  unfold drawLines. rewrite drawable_compile; [reflexivity|done|].
  by intros r' ->%list_elem_of_singleton.
Qed.

Lemma set_lines_twice v v' self :
  set_lines v (set_lines v' self) = set_lines v self.
Proof. done. Qed.

(** Two assignments into the row under the cursor, one after the other. *)
Lemma assign_cell_again self p k v r :
  (p < length (lines self))%nat ->
  assign_cell (Z.of_nat p) k v (set_lines (<[p := r]> (lines self)) self) =
    (Ok tt, set_lines (<[p := set_cell k v r]> (lines self)) self).
Proof.
  intros Hp. erewrite assign_cell_ok.
  - rewrite Nat2Z.id. cbn [lines set_lines].
    by rewrite list_insert_insert_eq, set_lines_twice.
  - lia.
  - rewrite Nat2Z.id. by apply list_lookup_insert_eq.
Qed.

Lemma draw_lines_last_again self p r :
  index self = Z.of_nat (S p) ->
  (p < length (lines self))%nat ->
  is_bar_row r = true ->
  draw_lines 0 None false (set_lines (<[p := r]> (lines self)) self) =
    (Ok tt,
     set_last (paint (last self) (compile [r]))
              (set_lines (<[p := r]> (lines self)) self)).
Proof.
  intros Hi Hp Hbar. erewrite draw_lines_last; [done|simpl; lia| |done].
  cbn [index lines set_lines]. rewrite Hi.
  replace (Z.to_nat (Z.of_nat (S p) - 1)) with p by lia.
  by apply list_lookup_insert_eq.
Qed.

(** The current-bar update.  It writes through the stale [index] only
    when the body in the table disagrees with the record, so either that
    index is the cursor or they agree. *)
Lemma current_bar_update_spec stale self array q r :
  1 <= index self ->
  list.last array = Some q ->
  Ohlc.index q = index self - 1 ->
  lines self !! Z.to_nat (index self - 1) = Some r ->
  is_bar_row r = true ->
  stale = index self
  \/ (r.1.1 = PyNone <-> PrimFloat.eqb (Ohlc.low q) (Ohlc.high q) = true) ->
  current_bar_update stale array self =
    (Ok tt,
     set_last (paint (last self) (compile [updated_row q r]))
       (set_lines (<[Z.to_nat (index self - 1) := updated_row q r]>
                     (lines self)) self)).
Proof.
  intros Hi Hlast Hidx Hrow Hbar Hstale.
  pose proof (lookup_lt_Some _ _ _ Hrow) as Hp.
  unfold current_bar_update, bind, gets, updated_row.
  rewrite (last_item _ _ Hlast). unfold lift at 1, ret at 1. cbv beta iota.
  rewrite Hidx, Z.eqb_refl. cbn [negb]. cbv beta iota.
  rewrite item_nonneg by lia. rewrite Hrow.
  unfold lift at 1, ret at 1. cbv beta iota.
  destruct r as [[body larm] rarm]. simpl in Hbar. cbn [fst snd] in Hstale.
  destruct larm as [| |la]; try (by destruct body).
  destruct rarm as [| |ra]; try (by destruct body).
  assert (body <> Zero) as Hbody by (by destruct body).
  assert (index self - 1 = Z.of_nat (Z.to_nat (index self - 1))) as Hpz
    by lia.
  assert (index self = Z.of_nat (S (Z.to_nat (index self - 1)))) as Hsz
    by lia.
  set (p := Z.to_nat (index self - 1)) in *. rewrite Hpz.
  cbn [fst snd line_of]. unfold ret at 1.
  erewrite assign_cell_ok; [|lia|rewrite Nat2Z.id; exact Hrow].
  rewrite Nat2Z.id.
  unfold ret at 1. rewrite assign_cell_again by done.
  unfold setLine. cbn [fst snd set_cell].
  destruct (PrimFloat.eqb (Ohlc.low q) (Ohlc.high q)) eqn:Heq; cbn [negb].
  - destruct body as [| |b]; [done| |].
    + unfold ret at 1. rewrite draw_lines_last_again by done. reflexivity.
    + destruct Hstale as [->|[_ Hc]]; [|by specialize (Hc eq_refl)].
      rewrite Hpz, assign_cell_again by done.
      rewrite draw_lines_last_again by done. reflexivity.
  - destruct body as [| |b]; [done| |].
    + destruct Hstale as [->|[Hc _]]; [|by specialize (Hc eq_refl)].
      rewrite Hpz, assign_cell_again by done.
      rewrite draw_lines_last_again by done. reflexivity.
    + cbn [line_of]. unfold ret at 1.
      rewrite assign_cell_again by done.
      rewrite draw_lines_last_again by done. reflexivity.
Qed.

(** The current-bar update on its own: no record beyond the cursor. *)
Lemma update_last_spec self array q r :
  len array <= index self ->
  list.last array = Some q ->
  Ohlc.index q = index self - 1 ->
  lines self !! Z.to_nat (index self - 1) = Some r ->
  is_bar_row r = true ->
  update_from_array array false self =
    (Ok tt,
     set_last (paint (last self) (compile [updated_row q r]))
       (set_lines (<[Z.to_nat (index self - 1) := updated_row q r]>
                     (lines self)) self)).
Proof.
  intros Hlen Hlast Hidx Hrow Hbar.
  assert (1 <= len array).
  { unfold len. destruct array; [done|]. simpl. lia. }
  unfold update_from_array, bind, gets.
  destruct (Z.ltb_spec 0 (len array - index self)); [lia|].
  unfold ret at 1.
  apply current_bar_update_spec; auto. lia.
Qed.

(** The rows of new bars leave the current-bar update nothing to change. *)
Lemma updated_row_bar_lines w q : updated_row q (bar_lines w q) = bar_lines w q.
Proof.
  unfold updated_row, bar_lines. cbn [fst snd x1 x2].
  by destruct (PrimFloat.eqb (Ohlc.low q) (Ohlc.high q)).
Qed.

Lemma is_bar_row_bar_lines w q : is_bar_row (bar_lines w q) = true.
Proof.
  unfold bar_lines.
  by destruct (PrimFloat.eqb (Ohlc.low q) (Ohlc.high q)).
Qed.

Lemma assign_rows_fit self (n : nat) new :
  (n + length new <= length (lines self))%nat ->
  assign_rows (Z.of_nat n) (Z.of_nat n + len new) new self =
    (Ok tt,
     set_lines (take n (lines self) ++ new
                  ++ drop (n + length new) (lines self)) self).
Proof.
  intros H. unfold assign_rows.
  rewrite !bound_nonneg by (unfold len; lia). unfold len.
  replace (Z.to_nat (Z.min (Z.of_nat (length (lines self))) (Z.of_nat n)))
    with n by lia.
  replace (Z.to_nat (Z.min (Z.of_nat (length (lines self)))
                           (Z.of_nat n + Z.of_nat (length new))))
    with (n + length new)%nat by lia.
  replace (n + length new - n)%nat with (length new) by lia.
  by rewrite decide_True.
Qed.

Lemma appended_length self array :
  (Z.to_nat (index self) < length array <= length (lines self))%nat ->
  length (appended self array) = length (lines self).
Proof.
  intros H. unfold appended.
  rewrite !length_app, length_take, length_map, !length_drop. lia.
Qed.

Lemma update_append_phase self array just_history :
  0 <= index self < len array ->
  len array <= len (lines self) ->
  update_from_array array just_history self =
    if drawable (compile (take (length array - 1) (appended self array)))
    then (if just_history then (Ok tt, appended_state self array)
          else current_bar_update (index self) array
                 (appended_state self array))
    else (Raise TypeError,
          mkBarItems (w self) (last self) (paint (history self) [])
                     (appended self array) (len array)).
Proof.
  intros Hn Hcap.
  assert (index self = Z.of_nat (Z.to_nat (index self))) as Hnz by lia.
  unfold appended_state, appended. set (n := Z.to_nat (index self)) in *.
  assert (n < length array <= length (lines self))%nat as Hlen
    by (unfold len in *; lia).
  assert (slice array (index self) (index self + (len array - index self))
          = drop n array) as Hslice.
  { replace (index self + (len array - index self))
      with (Z.of_nat (length array)) by (unfold len; lia).
    rewrite Hnz, slice_in_range by lia.
    apply take_ge. rewrite length_drop. lia. }
  assert (len (map (bar_lines (w self)) (drop n array))
          = Z.of_nat (length array - n)) as Hadded.
  { unfold len. by rewrite length_map, length_drop. }
  unfold update_from_array, bind, gets.
  destruct (Z.ltb_spec 0 (len array - index self)); [|lia].
  rewrite !Hslice, bars_from_ohlc_map.
  rewrite Hnz at 1 2. rewrite assign_rows_fit
    by (rewrite length_map, length_drop; lia).
  unfold modify at 1. cbv beta iota.
  rewrite length_map, length_drop, Hadded.
  replace (n + (length array - n))%nat with (length array) by lia.
  set (lines' := take n (lines self) ++ _ ++ _).
  assert (length lines' = length (lines self)) as Hlines'
    by (apply appended_length; lia).
  unfold draw_lines at 1, or_else. bar_simpl.
  replace (index self + Z.of_nat (length array - n))
    with (Z.of_nat (length array)) by lia.
  replace (Z.of_nat (length array) - 1)
    with (Z.of_nat (length array - 1)) by lia.
  rewrite slice_prefix by lia.
  fold (compile (take (length array - 1) lines')).
  unfold drawLines.
  destruct (drawable (compile (take (length array - 1) lines')));
    [|reflexivity].
  by destruct just_history.
Qed.

(** The rows of the table after new records were written are rows of
    bars, up to the last record. *)
Lemma appended_bar_rows self array k r :
  shows_bars self ->
  (Z.to_nat (index self) < length array <= length (lines self))%nat ->
  (k < length array)%nat ->
  appended self array !! k = Some r ->
  is_bar_row r = true.
Proof.
  intros Hbars Hlen Hk. unfold appended.
  destruct (decide (k < Z.to_nat (index self))%nat) as [Hlt|Hge].
  - rewrite lookup_app_l by (rewrite length_take; lia).
    rewrite lookup_take_lt by done. by apply Hbars.
  - rewrite lookup_app_r by (rewrite length_take; lia).
    rewrite length_take.
    rewrite lookup_app_l by (rewrite length_map, length_drop; lia).
    rewrite list_lookup_fmap.
    destruct (drop _ array !! _); [|done].
    intros [= <-]. apply is_bar_row_bar_lines.
Qed.

(** With two records or more the history has a line to draw. *)
Lemma appended_drawable self array :
  shows_bars self ->
  (Z.to_nat (index self) < length array <= length (lines self))%nat ->
  (2 <= length array)%nat ->
  drawable (compile (take (length array - 1) (appended self array))) = true.
Proof.
  intros Hbars Hlen Hn.
  pose proof (appended_length self array Hlen) as Hal.
  apply drawable_compile.
  - intros Hnil. apply (f_equal length) in Hnil.
    rewrite length_take in Hnil. simpl in Hnil. lia.
  - intros r [k [Hk Hlt]]%elem_of_take.
    apply (appended_bar_rows self array k); [done|done|lia|done].
Qed.

(** An update with records beyond the cursor that fit the table, two at
    least in all, the last of them numbered as the assertion wants. *)
Lemma update_append_spec self array just_history q :
  shows_bars self ->
  2 <= len array ->
  0 <= index self < len array ->
  len array <= len (lines self) ->
  list.last array = Some q ->
  just_history = true \/ Ohlc.index q = len array - 1 ->
  update_from_array array just_history self =
    (Ok tt,
     let lines' := appended self array in
     mkBarItems (w self)
       (if just_history then last self
        else paint (last self) (compile [bar_lines (w self) q]))
       (paint (history self)
              (compile (take (length array - 1) lines')))
       lines' (len array)).
Proof.
  intros Hbars Htwo Hn Hcap Hlast Hq.
  assert (Z.to_nat (index self) < length array <= length (lines self))%nat
    as Hlen by (unfold len in *; lia).
  rewrite update_append_phase by done.
  rewrite appended_drawable by (unfold len in *; (done || lia)).
  destruct just_history; [done|].
  destruct Hq as [|Hq]; [done|].
  assert (appended self array !! (length array - 1)%nat
          = Some (bar_lines (w self) q)) as Hrow.
  { unfold appended. rewrite lookup_app_r by (rewrite length_take; lia).
    rewrite length_take.
    rewrite lookup_app_l by (rewrite length_map, length_drop; lia).
    rewrite list_lookup_fmap, lookup_drop.
    rewrite last_lookup in Hlast.
    replace (Z.to_nat (index self)
             + (length array - 1
                - Z.to_nat (index self) `min` length (lines self)))%nat
      with (pred (length array)) by lia.
    by rewrite Hlast. }
  unfold appended_state.
  rewrite (current_bar_update_spec _ _ _ q (bar_lines (w self) q)).
  - bar_simpl.
    rewrite updated_row_bar_lines.
    replace (Z.to_nat (len array - 1))
      with (length array - 1)%nat by (unfold len; lia).
    rewrite list_insert_id by done.
    reflexivity.
  - bar_simpl. lia.
  - done.
  - bar_simpl. lia.
  - bar_simpl. rewrite <- Hrow. f_equal. unfold len. lia.
  - apply is_bar_row_bar_lines.
  - right. unfold bar_lines. cbn [fst].
    by destruct (PrimFloat.eqb (Ohlc.low q) (Ohlc.high q)).
Qed.

(** No path through the current-bar update touches the history picture,
    the cursor or the half-width. *)
Lemma current_bar_update_frame stale array self out self' :
  current_bar_update stale array self = (out, self') ->
  history self' = history self /\ index self' = index self
  /\ w self' = w self /\ length (lines self') = length (lines self).
Proof.
  unfold current_bar_update, bind, gets, lift, line_of, assign_cell,
    draw_lines, ret, raise.
  intros H.
  repeat (case_match; simplify_eq/=; bar_simpl;
          rewrite ?length_alter; try done).
Qed.

Lemma current_bar_update_assert stale array self q :
  list.last array = Some q ->
  Ohlc.index q <> index self - 1 ->
  current_bar_update stale array self = (Raise AssertionError, self).
Proof.
  intros Hlast Hq. unfold current_bar_update, bind, gets.
  rewrite (last_item _ _ Hlast). unfold lift at 1, ret at 1. cbv beta iota.
  by destruct (Z.eqb_spec (Ohlc.index q) (index self - 1)).
Qed.

(** On floats, [l < h] excludes [l == h]. *)
Lemma ltb_not_eqb (x y : float) :
  PrimFloat.ltb x y = true -> PrimFloat.eqb x y = false.
Proof.
  rewrite FloatAxioms.ltb_spec, FloatAxioms.eqb_spec. unfold SFltb, SFeqb.
  by destruct (SFcompare (Prim2SF x) (Prim2SF y)) as [[]|].
Qed.

Lemma is_bar_row_updated q r :
  is_bar_row r = true -> is_bar_row (updated_row q r) = true.
Proof.
  destruct r as [[body larm] rarm]. unfold updated_row. cbn [fst snd].
  destruct body, larm, rarm; try done;
    by destruct (PrimFloat.eqb (Ohlc.low q) (Ohlc.high q)).
Qed.

Lemma updated_row_twice q r :
  updated_row q (updated_row q r) = updated_row q r.
Proof.
  destruct r as [[body larm] rarm]. unfold updated_row. cbn [fst snd].
  by destruct larm, rarm.
Qed.

(** C1: [bars_from_ohlc] gives every record [(i, o, h, l, c)] the body from
    [(i, l)] to [(i, h)] when [l != h] and none when [l == h], the left arm
    from [(i - w, o)] to [(i, o)] and the right arm from [(i, c)] to
    [(i + w, c)]; the three bars of the scenario, appended to a new
    [BarItems] with [w = 0.43], leave the count at 3, no body for bar 1,
    the body of bar 0 from 9 to 12 at x = 0 and the left arm of bar 2 from
    x = 1.57 to x = 2 at y = 11. *)
Theorem C1_bar_geometry :
  (forall (w : float) (pre post : list Ohlc.t) (q : Ohlc.t),
     let i := float_of_Z (Ohlc.index q) in
     bars_from_ohlc (pre ++ q :: post) w 0 !! length pre =
       Some (if negb (PrimFloat.eqb (Ohlc.low q) (Ohlc.high q))
             then Line (mkQLineF i (Ohlc.low q) i (Ohlc.high q))
             else PyNone,
             Line (mkQLineF (PrimFloat.sub i w) (Ohlc.open q)
                            i (Ohlc.open q)),
             Line (mkQLineF i (Ohlc.close q)
                            (PrimFloat.add i w) (Ohlc.close q))))
  /\ (let r := update_from_array scenario false init in
      w init = 0.43%float
      /\ r.1 = Ok tt
      /\ index r.2 = 3
      /\ (fun x : row => x.1.1) <$> lines r.2 !! 1%nat = Some PyNone
      /\ (fun x : row => x.1.1) <$> lines r.2 !! 0%nat
         = Some (Line (mkQLineF 0 9 0 12))
      /\ (fun x : row => x.1.2) <$> lines r.2 !! 2%nat
         = Some (Line (mkQLineF 1.57 11 2 11))).
Proof.
  split.
  - intros w pre post q i. rewrite bars_from_ohlc_map, map_app.
    rewrite lookup_app_r by (by rewrite length_map).
    rewrite length_map, Nat.sub_diag. reflexivity.
  - vm_compute. repeat split; reflexivity.
Qed.

(** C5: [updateLast] is [update_from_array] with no record beyond the
    cursor; for a last record numbered [count - 1], over the row of a bar,
    it succeeds, keeps the count, and leaves that row without a body when
    [low == high] and with the body from [(index, low)] to [(index, high)]
    when [low < high]. *)
Theorem C5_update_last_body self array q r :
  len array = index self ->
  list.last array = Some q ->
  Ohlc.index q = index self - 1 ->
  lines self !! Z.to_nat (index self - 1) = Some r ->
  is_bar_row r = true ->
  exists self' body larm rarm,
    update_from_array array false self = (Ok tt, self')
    /\ index self' = index self
    /\ lines self' !! Z.to_nat (index self - 1) = Some (body, larm, rarm)
    /\ (PrimFloat.eqb (Ohlc.low q) (Ohlc.high q) = true -> body = PyNone)
    /\ (PrimFloat.ltb (Ohlc.low q) (Ohlc.high q) = true ->
        body = Line (mkQLineF (float_of_Z (Ohlc.index q)) (Ohlc.low q)
                              (float_of_Z (Ohlc.index q)) (Ohlc.high q))).
Proof.
  intros Hlen Hlast Hidx Hrow Hbar.
  pose proof (lookup_lt_Some _ _ _ Hrow) as Hp.
  eexists _, (updated_row q r).1.1, (updated_row q r).1.2,
    (updated_row q r).2.
  split; [apply (update_last_spec self array q r); auto; lia|].
  bar_simpl. split; [done|]. split.
  { rewrite list_lookup_insert_eq by done.
    by destruct (updated_row q r) as [[??]?]. }
  unfold updated_row. cbn [fst snd]. split.
  - by intros ->.
  - by intros ->%ltb_not_eqb.
Qed.

Lemma C5_update_last_body_witness :
  exists self' body larm rarm,
    update_from_array scenario false three_bars = (Ok tt, self')
    /\ index self' = index three_bars
    /\ lines self' !! Z.to_nat (index three_bars - 1)
       = Some (body, larm, rarm)
    /\ (PrimFloat.eqb (Ohlc.low (Ohlc.mk 2 11 14 10 13 0))
                      (Ohlc.high (Ohlc.mk 2 11 14 10 13 0)) = true ->
        body = PyNone)
    /\ (PrimFloat.ltb (Ohlc.low (Ohlc.mk 2 11 14 10 13 0))
                      (Ohlc.high (Ohlc.mk 2 11 14 10 13 0)) = true ->
        body = Line (mkQLineF
                       (float_of_Z (Ohlc.index (Ohlc.mk 2 11 14 10 13 0)))
                       (Ohlc.low (Ohlc.mk 2 11 14 10 13 0))
                       (float_of_Z (Ohlc.index (Ohlc.mk 2 11 14 10 13 0)))
                       (Ohlc.high (Ohlc.mk 2 11 14 10 13 0)))).
Proof.
  apply (C5_update_last_body three_bars scenario (Ohlc.mk 2 11 14 10 13 0)
           (bar_lines 0.43 (Ohlc.mk 2 11 14 10 13 0)));
    vm_compute; reflexivity.
Defined.

(** C7: [updateLast] twice with the same record is [updateLast] once: for
    a last record numbered [count - 1] over the row of a bar, both calls
    succeed; the second leaves the whole table, the count, the history
    picture and the lines of the live picture as the first left them, and
    the first changes no row but the last one. *)
Theorem C7_update_last_idempotent self array q r :
  len array = index self ->
  list.last array = Some q ->
  Ohlc.index q = index self - 1 ->
  lines self !! Z.to_nat (index self - 1) = Some r ->
  is_bar_row r = true ->
  exists once twice,
    update_from_array array false self = (Ok tt, once)
    /\ update_from_array array false once = (Ok tt, twice)
    /\ lines twice = lines once
    /\ index twice = index once
    /\ index once = index self
    /\ history twice = history once
    /\ commands (last twice) = commands (last once)
    /\ (forall k, k <> Z.to_nat (index self - 1) ->
          lines once !! k = lines self !! k).
Proof.
  intros Hlen Hlast Hidx Hrow Hbar.
  pose proof (lookup_lt_Some _ _ _ Hrow) as Hp.
  eexists _, _. split; [apply (update_last_spec self array q r); auto; lia|].
  split.
  { apply (update_last_spec _ array q (updated_row q r)); bar_simpl;
      auto using is_bar_row_updated; [lia|].
    by apply list_lookup_insert_eq. }
  bar_simpl. rewrite updated_row_twice, list_insert_insert_eq.
  repeat split; try done.
  intros k Hk. by rewrite list_lookup_insert_ne.
Qed.

Lemma C7_update_last_idempotent_witness :
  exists once twice,
    update_from_array scenario false three_bars = (Ok tt, once)
    /\ update_from_array scenario false once = (Ok tt, twice)
    /\ lines twice = lines once
    /\ index twice = index once
    /\ index once = index three_bars
    /\ history twice = history once
    /\ commands (last twice) = commands (last once)
    /\ (forall k, k <> Z.to_nat (index three_bars - 1) ->
          lines once !! k = lines three_bars !! k).
Proof.
  apply (C7_update_last_idempotent three_bars scenario
           (Ohlc.mk 2 11 14 10 13 0)
           (bar_lines 0.43 (Ohlc.mk 2 11 14 10 13 0)));
    vm_compute; reflexivity.
Defined.

(** A current-bar update that returns has painted the live picture once,
    with the row under the cursor as it then is. *)
(** A call with no record beyond the cursor is the current-bar update,
    whatever [just_history] is. *)
Lemma update_no_new self array just_history :
  len array <= index self ->
  update_from_array array just_history self
  = current_bar_update (index self) array self.
Proof.
  intros Hlen. unfold update_from_array. unfold bind at 1, gets at 1.
  destruct (Z.ltb_spec 0 (len array - index self)); [lia|]. reflexivity.
Qed.

(** [shows_bars] by evaluation. *)
Lemma shows_bars_check self :
  forallb is_bar_row (take (Z.to_nat (index self)) (lines self)) = true ->
  shows_bars self.
Proof.
  intros Hall k r Hk Hr.
  rewrite forallb_forall in Hall. apply Hall.
  apply list_elem_of_In, elem_of_take. eauto.
Qed.

(** What a call with records beyond the cursor that fit the table does. *)
Lemma update_append_outcome self array just_history q :
  shows_bars self ->
  0 <= index self < len array ->
  len array <= len (lines self) ->
  list.last array = Some q ->
  update_from_array array just_history self =
    if decide (len array = 1) then
      (Raise TypeError,
       mkBarItems (w self) (last self) (paint (history self) [])
                  (appended self array) (len array))
    else if decide (just_history = true \/ Ohlc.index q = len array - 1)
    then
      (Ok tt,
       mkBarItems (w self)
         (if just_history then last self
          else paint (last self) (compile [bar_lines (w self) q]))
         (paint (history self)
            (compile (take (length array - 1) (appended self array))))
         (appended self array) (len array))
    else (Raise AssertionError, appended_state self array).
Proof.
  intros Hbars Hn Hcap Hlast.
  assert (Z.to_nat (index self) < length array <= length (lines self))%nat
    as Hlen by (unfold len in *; lia).
  destruct (decide (len array = 1)) as [Hone|Hmore].
  - rewrite update_append_phase by done.
    replace (length array - 1)%nat with 0%nat by (unfold len in *; lia).
    reflexivity.
  - assert (2 <= len array) as Htwo by lia.
    destruct (decide (just_history = true \/ Ohlc.index q = len array - 1))
      as [Hq|Hq].
    + by apply update_append_spec.
    + assert (just_history = false) as -> by (destruct just_history; tauto).
      rewrite update_append_phase by done.
      rewrite appended_drawable by (unfold len in *; (done || lia)).
      apply (current_bar_update_assert _ _ _ q); [done|].
      unfold appended_state. bar_simpl. tauto.
Qed.

(** C3: for an array that fits a table whose rows below the cursor are
    rows of bars.  A call of [update_from_array] with as many records as
    the cursor counts leaves the history picture exactly as it was,
    whatever the call returns or raises; when the last record is numbered
    by the cursor the call returns, and it has painted the live picture
    once, with the row under the cursor.  A call with records beyond the
    cursor paints the history once, with every row below the last
    record's; it returns when the array has two records or more and, with
    [just_history] off, the last is numbered by its place, and then the
    history holds the rows [0 .. count - 1) of the table as the call leaves
    it and, with [just_history] off, the live picture is painted with the
    lines of the last record; with a single record the history has no line
    to draw and the call raises [TypeError]. *)
Theorem C3_history_only_on_append self array just_history q :
  list.last array = Some q ->
  len array <= len (lines self) ->
  shows_bars self ->
  (len array = index self ->
     (forall out self',
        update_from_array array just_history self = (out, self') ->
        history self' = history self)
     /\ (Ohlc.index q = index self - 1 ->
         exists self' r,
           update_from_array array just_history self = (Ok tt, self')
           /\ history self' = history self
           /\ index self' = index self
           /\ lines self' !! Z.to_nat (index self - 1) = Some r
           /\ last self' = paint (last self) (compile [r])))
  /\ (0 <= index self < len array ->
      exists out self',
        update_from_array array just_history self = (out, self')
        /\ history self'
           = paint (history self)
               (compile (take (length array - 1) (appended self array)))
        /\ paints (history self') = S (paints (history self))
        /\ index self' = len array
        /\ out = (if decide (len array = 1) then Raise TypeError
                  else if decide (just_history = true
                                  \/ Ohlc.index q = len array - 1)
                  then Ok tt else Raise AssertionError)
        /\ (out = Ok tt ->
            commands (history self')
            = compile (take (Z.to_nat (index self' - 1)) (lines self'))
            /\ (just_history = false ->
                last self'
                = paint (last self) (compile [bar_lines (w self) q])))).
Proof.
  intros Hlast Hcap Hbars.
  assert (1 <= len array) as Hne.
  { unfold len. destruct array; [done|]. simpl. lia. }
  split.
  - intros Hlen. rewrite update_no_new by lia. split.
    { intros out self' Hcur.
      by destruct (current_bar_update_frame _ _ _ _ _ Hcur) as (-> & _). }
    intros Hq.
    destruct (lookup_lt_is_Some_2 (lines self) (Z.to_nat (index self - 1)))
      as [r Hr]; [unfold len in *; lia|].
    assert (is_bar_row r = true) as Hbar
      by (apply (Hbars (Z.to_nat (index self - 1)) r); [lia|done]).
    exists (set_last (paint (last self) (compile [updated_row q r]))
              (set_lines (<[Z.to_nat (index self - 1) := updated_row q r]>
                            (lines self)) self)), (updated_row q r).
    split; [apply current_bar_update_spec; auto; lia|].
    bar_simpl. split; [done|]. split; [done|]. split; [|done].
    apply list_lookup_insert_eq. by apply lookup_lt_Some in Hr.
  - intros Hn. rewrite (update_append_outcome _ _ _ q) by done.
    destruct (decide (len array = 1)) as [Hone|Hmore].
    { eexists _, _. split; [done|]. bar_simpl.
      replace (length array - 1)%nat with 0%nat by (unfold len in *; lia).
      repeat split; done. }
    destruct (decide (just_history = true \/ Ohlc.index q = len array - 1)).
    + eexists _, _. split; [done|]. bar_simpl.
      split; [done|]. split; [done|]. split; [done|]. split; [done|].
      intros _. split.
      * cbn [commands paint]. do 2 f_equal. unfold len. lia.
      * by intros ->.
    + eexists _, _. split; [done|]. unfold appended_state. bar_simpl.
      repeat split; done.
Qed.

(** The third bar of the scenario after the first two, and the three bars
    again. *)
Lemma C3_history_only_on_append_witness :
  (exists out self',
     update_from_array scenario false two_bars = (out, self')
     /\ history self'
        = paint (history two_bars)
            (compile (take (length scenario - 1)
                           (appended two_bars scenario)))
     /\ paints (history self') = S (paints (history two_bars))
     /\ index self' = len scenario
     /\ out = Ok tt)
  /\ (exists self' r,
        update_from_array scenario false three_bars = (Ok tt, self')
        /\ history self' = history three_bars
        /\ index self' = index three_bars
        /\ lines self' !! Z.to_nat (index three_bars - 1) = Some r
        /\ last self' = paint (last three_bars) (compile [r])).
Proof.
  split.
  - destruct (C3_history_only_on_append two_bars scenario false
                (Ohlc.mk 2 11 14 10 13 0)) as [_ Happ];
      [reflexivity|vm_compute; discriminate
      |apply shows_bars_check; vm_compute; reflexivity|].
    destruct Happ as (out & self' & Hrun & Hh & Hp & Hi & Hout & _);
      [vm_compute; split; [discriminate|reflexivity]|].
    exists out, self'. split; [exact Hrun|]. split; [exact Hh|].
    split; [exact Hp|]. split; [exact Hi|]. rewrite Hout. reflexivity.
  - destruct (C3_history_only_on_append three_bars scenario false
                (Ohlc.mk 2 11 14 10 13 0)) as [Hsame _];
      [reflexivity|vm_compute; discriminate
      |apply shows_bars_check; vm_compute; reflexivity|].
    destruct Hsame as [_ Hlive]; [vm_compute; reflexivity|].
    apply Hlive. vm_compute. reflexivity.
Defined.




End BarFacts.

(** ** The crosshair *)

Section CrossFacts.
Import Py Qt Cross.
Local Open Scope Z_scope.

Variable mapToView : plot -> QPointF -> QPointF.
Variable mapFromView : plot -> QPointF -> QPointF.

Ltac cross_simpl :=
  cbn [graphics plots active_plot digits _lastx xaxis_label contents
       set_graphics set_plots set_active_plot set_lastx set_xaxis_label
       set_contents].

Lemma dict_get_alter {V} (f : V -> V) k k' (d : dict V) :
  dict_get k' (dict_alter f k d)
  = if decide (k' = k) then f <$> dict_get k' d else dict_get k' d.
Proof.
  induction d as [|[k0 v0] d IH]; simpl; [by case_decide|].
  destruct (decide (k = k0)) as [->|Hne]; simpl;
    destruct (decide (k' = k0)) as [->|Hne']; simpl;
    rewrite ?decide_True by done; rewrite ?decide_False by done;
    done.
Qed.

Lemma dict_get_map {V} (f : V -> V) k (d : dict V) :
  dict_get k (map (fun kv => (kv.1, f kv.2)) d) = f <$> dict_get k d.
Proof.
  induction d as [|[k0 v0] d IH]; simpl; [done|].
  by destruct (decide (k = k0)).
Qed.

(** [self.graphics[plot][...]] changed in place, for a plot that was added *)
Lemma on_graphics_ok p f self o :
  dict_get p (graphics self) = Some o ->
  on_graphics p f self
  = (Ok tt, set_graphics (dict_alter f p (graphics self)) self).
Proof.
  intros H. unfold on_graphics, graphics_item, bind, gets, modify.
  by rewrite H.
Qed.

(** What [mouseMoved] does over an active plot once the index is known. *)
Lemma mouseMoved_active self p o pos ix :
  active_plot self = Some p ->
  dict_get p (graphics self) = Some o ->
  round (x (mapToView p pos)) = Ok ix ->
  let y := y (mapToView p pos) in
  let g1 :=
    dict_alter (fun o => set_yl (update_label pos y (yl o)) o) p
      (dict_alter (fun o => set_hl (setPos y (hl o)) o) p (graphics self)) in
  mouseMoved mapToView mapFromView pos self
  = if decide (Some ix = _lastx self)
    then (Ok tt, set_lastx (Some ix) (set_graphics g1 self))
    else match xaxis_label self with
         | Some xl =>
             (Ok tt,
              mkCrossHair
                (map (fun kv => (kv.1, snap ix kv.2)) g1)
                (plots self) (active_plot self) (digits self) (Some ix)
                (Some (update_label
                         (mapFromView (last_key g1 p)
                                      (mkQPointF (float_of_Z ix) y))
                         (x (mapToView p pos)) xl))
                (foldl (fun c kv => dict_set kv.1 ix c) (contents self) g1))
         | None =>
             (Raise AttributeError,
              mkCrossHair
                (map (fun kv => (kv.1, snap ix kv.2)) g1)
                (plots self) (active_plot self) (digits self) (_lastx self)
                None
                (foldl (fun c kv => dict_set kv.1 ix c) (contents self) g1))
         end.
Proof.
  destruct self as [g ps ap dg lx xl ct]. cross_simpl.
  intros -> Hget Hround.
  unfold mouseMoved. unfold bind at 1, gets at 1. cross_simpl.
  unfold bind at 1. rewrite (on_graphics_ok _ _ _ o) by done.
  unfold bind at 1.
  erewrite on_graphics_ok; cycle 1.
  { cross_simpl. rewrite dict_get_alter, decide_True by done.
    by rewrite Hget. }
  cross_simpl.
  unfold bind at 1, gets at 1. cross_simpl.
  unfold bind at 1, try at 1. rewrite Hround.
  unfold bind at 1.
  destruct (decide (Some ix = lx)) as [Heq|Hne].
  - reflexivity.
  - destruct xl; reflexivity.
Qed.

Lemma dict_alter_alter {V} (f g : V -> V) k (d : dict V) :
  dict_alter f k (dict_alter g k d) = dict_alter (fun v => f (g v)) k d.
Proof.
  induction d as [|[k0 v0] d IH]; simpl; [done|].
  destruct (decide (k = k0)) as [->|Hne]; simpl.
  - by rewrite decide_True.
  - by rewrite decide_False, IH.
Qed.

Lemma dict_get_set {V} k k' (v : V) (d : dict V) :
  dict_get k' (dict_set k v d)
  = if decide (k' = k) then Some v else dict_get k' d.
Proof.
  induction d as [|[k0 v0] d IH]; simpl; [done|].
  destruct (decide (k = k0)) as [->|Hne]; simpl;
    destruct (decide (k' = k0)) as [->|Hne']; simpl;
    rewrite ?decide_True by done; rewrite ?decide_False by done;
    rewrite ?IH; rewrite ?decide_False by done; done.
Qed.

(** [plot.update_contents_labels(ix)] over every chart of the loop *)
Lemma contents_after_loop k ix (g : dict opts) (c : dict Z) :
  dict_get k (foldl (fun c kv => dict_set kv.1 ix c) c g)
  = match dict_get k g with Some _ => Some ix | None => dict_get k c end.
Proof.
  revert c. induction g as [|[k0 v0] g IH]; intros c; simpl; [done|].
  rewrite IH, dict_get_set.
  destruct (decide (k = k0)) as [->|Hne]; [|done].
  by destruct (dict_get k0 g).
Qed.

(** A plot that was never added: [self.graphics[plot]] raises. *)
Lemma mouseMoved_KeyError self p pos :
  active_plot self = Some p ->
  dict_get p (graphics self) = None ->
  mouseMoved mapToView mapFromView pos self = (Raise KeyError, self).
Proof.
  destruct self as [g ps ap dg lx xl ct]. cross_simpl.
  intros -> Hget.
  unfold mouseMoved, on_graphics, graphics_item, bind, gets, lift.
  cross_simpl. by rewrite Hget.
Qed.

(** The state an event leaves when it returned. *)
Lemma mouseMoved_after self p xl pos ix s1 :
  active_plot self = Some p ->
  xaxis_label self = Some xl ->
  round (x (mapToView p pos)) = Ok ix ->
  mouseMoved mapToView mapFromView pos self = (Ok tt, s1) ->
  active_plot s1 = Some p
  /\ _lastx s1 = Some ix
  /\ is_Some (dict_get p (graphics s1))
  /\ is_Some (xaxis_label s1).
Proof.
  intros Hact Hxl Hround Hrun.
  destruct (dict_get p (graphics self)) as [o|] eqn:Hget; cycle 1.
  { rewrite (mouseMoved_KeyError _ p) in Hrun by done. done. }
  rewrite (mouseMoved_active _ p o _ ix) in Hrun by done.
  cbv zeta in Hrun. rewrite Hxl in Hrun.
  destruct (decide (Some ix = _lastx self)) as [Heq|Hne];
    injection Hrun as <-; cross_simpl.
  - rewrite !dict_get_alter, !decide_True, Hget by done. eauto.
  - rewrite dict_get_map, !dict_get_alter, !decide_True, Hget by done. eauto.
Qed.

(** C4: two consecutive [mouseMoved] events over the active plot [p].  When
    the x of the second rounds to the index of the first, the second moves
    only the horizontal line of [p] and updates its y-axis label: every other
    entry of [graphics] is the same, every vertical line and every cursor is
    where it was, and the contents labels, the x-axis label and [_lastx] are
    unchanged.  When it rounds to another index, the vertical line and the
    cursors of every added plot move to the new index, every plot's contents
    labels are asked for it, the x-axis label is updated and [_lastx] is the
    new index. *)
Theorem C4_refresh_on_index_change self p xl pos1 pos2 ix1 ix2 s1 :
  active_plot self = Some p ->
  xaxis_label self = Some xl ->
  round (x (mapToView p pos1)) = Ok ix1 ->
  round (x (mapToView p pos2)) = Ok ix2 ->
  mouseMoved mapToView mapFromView pos1 self = (Ok tt, s1) ->
  let x2 := x (mapToView p pos2) in
  let y2 := y (mapToView p pos2) in
  exists s2,
    mouseMoved mapToView mapFromView pos2 s1 = (Ok tt, s2)
    /\ active_plot s2 = Some p
    /\ plots s2 = plots s1
    /\ (ix2 = ix1 ->
        (forall k, dict_get k (graphics s2)
                   = (if decide (k = p) then follow pos2 y2 else id)
                       <$> dict_get k (graphics s1))
        /\ (forall k, vl <$> dict_get k (graphics s2)
                      = vl <$> dict_get k (graphics s1))
        /\ (forall k, cursors <$> dict_get k (graphics s2)
                      = cursors <$> dict_get k (graphics s1))
        /\ contents s2 = contents s1
        /\ xaxis_label s2 = xaxis_label s1
        /\ _lastx s2 = _lastx s1)
    /\ (ix2 <> ix1 ->
        (forall k, dict_get k (graphics s2)
                   = (fun o => snap ix2 ((if decide (k = p)
                                          then follow pos2 y2 else id) o))
                       <$> dict_get k (graphics s1))
        /\ (forall k o, dict_get k (graphics s2) = Some o ->
                        pos (vl o) = float_of_Z ix2
                        /\ Forall (fun i => i = ix2) (cursors o)
                        /\ dict_get k (contents s2) = Some ix2)
        /\ (exists xl1 q,
              xaxis_label s1 = Some xl1
              /\ xaxis_label s2
                 = Some (update_label
                           (mapFromView q (mkQPointF (float_of_Z ix2) y2))
                           x2 xl1))
        /\ _lastx s2 = Some ix2).
Proof.
  intros Hact Hxl Hr1 Hr2 Hrun x2 y2.
  destruct (mouseMoved_after _ _ _ _ _ _ Hact Hxl Hr1 Hrun)
    as (Hact1 & Hlast1 & [o Hget] & [xl1 Hxl1]).
  rewrite (mouseMoved_active _ p o _ ix2) by done.
  cbv zeta. fold x2 y2. rewrite Hlast1, Hxl1, dict_alter_alter.
  change (fun v => set_yl (update_label pos2 y2 (yl (set_hl (setPos y2 (hl v)) v)))
                          (set_hl (setPos y2 (hl v)) v))
    with (follow pos2 y2).
  assert (forall k, dict_get k (dict_alter (follow pos2 y2) p (graphics s1))
                    = (if decide (k = p) then follow pos2 y2 else id)
                        <$> dict_get k (graphics s1)) as Hg1.
  { intros k. rewrite dict_get_alter. case_decide; [done|].
    by destruct (dict_get k (graphics s1)). }
  destruct (decide (Some ix2 = Some ix1)) as [Heq|Hne].
  - eexists. split; [done|]. cross_simpl.
    split; [done|]. split; [done|]. split.
    + intros _. split; [done|].
      split; [|split; [|done]].
      * intros k. rewrite Hg1. destruct (dict_get k (graphics s1)); [|done].
        simpl. by case_decide.
      * intros k. rewrite Hg1. destruct (dict_get k (graphics s1)); [|done].
        simpl. by case_decide.
    + intros Hix. congruence.
  - eexists. split; [done|]. cross_simpl.
    split; [done|]. split; [done|]. split; [intros ->; done|].
    intros _.
    assert (forall k, dict_get k (map (fun kv => (kv.1, snap ix2 kv.2))
                          (dict_alter (follow pos2 y2) p (graphics s1)))
              = (fun o => snap ix2 ((if decide (k = p)
                                     then follow pos2 y2 else id) o))
                  <$> dict_get k (graphics s1)) as Hg2.
    { intros k. rewrite dict_get_map, Hg1.
      by destruct (dict_get k (graphics s1)). }
    split; [done|]. split; [|eauto].
    intros k o' Hk. rewrite contents_after_loop, Hg1.
    rewrite Hg2 in Hk.
    destruct (dict_get k (graphics s1)) as [o1|]; [|done].
    injection Hk as <-. simpl. split; [done|]. split; [|done].
    induction (cursors _) as [|c cs IH]; simpl; by constructor.
Qed.

End CrossFacts.

Section CrossScenarios.
Import Py Qt Cross.
Local Open Scope Z_scope.

(** The pointer moves from x = 3.2 to x = 3.4 over chart 1: both round to
    bar 3. *)
Lemma C4_refresh_on_index_change_witness :
  let pos1 := mkQPointF 3.2 10 in
  let pos2 := mkQPointF 3.4 11 in
  let s1 := (mouseMoved scene scene pos1 two_charts).2 in
  exists s2,
    mouseMoved scene scene pos2 s1 = (Ok tt, s2)
    /\ (vl <$> dict_get 2%nat (graphics s2)
        = vl <$> dict_get 2%nat (graphics s1))
    /\ contents s2 = contents s1
    /\ xaxis_label s2 = xaxis_label s1
    /\ _lastx s2 = _lastx s1.
Proof.
  intros pos1 pos2 s1.
  destruct (C4_refresh_on_index_change scene scene two_charts 1%nat
              (mkAxisLabel true (mkQPointF 0 0) None) pos1 pos2 3 3 s1)
    as (s2 & Hrun & _ & _ & Hsame & _); [vm_compute; reflexivity ..|].
  destruct (Hsame eq_refl) as (_ & Hvl & _ & ? & ? & ?).
  exists s2. auto.
Defined.

(** The claim fails: the pointer entered chart 1 and then chart 2, which is
    the active plot; the leave of chart 1 returns, and afterwards no plot is
    active and the horizontal line of chart 1, which showed, is hidden. *)
Lemma C6_counterexample :
  let r := mouseAction Leave 1%nat entered_twice in
  active_plot entered_twice = Some 2%nat
  /\ r.1 = Ok tt
  /\ active_plot r.2 = None
  /\ (fun o => visible (hl o)) <$> dict_get 1%nat (graphics entered_twice)
     = Some true
  /\ (fun o => visible (hl o)) <$> dict_get 1%nat (graphics r.2) = Some false
  /\ r.2 <> entered_twice.
Proof.
  vm_compute. repeat split; congruence.
Qed.

(** C6, as the code has it: a leave of any added plot [a], active or not,
    returns; afterwards no plot is active, the horizontal line and the
    y-axis label of [a] are hidden, and the entry of every other plot, the
    x-axis label, [_lastx] and the contents labels are as before. *)
Theorem C6_leave_deactivates self a o :
  dict_get a (graphics self) = Some o ->
  exists s',
    mouseAction Leave a self = (Ok tt, s')
    /\ active_plot s' = None
    /\ dict_get a (graphics s')
       = Some (set_yl (label_show false (yl o))
                      (set_hl (line_show false (hl o)) o))
    /\ (forall b, b <> a ->
                  dict_get b (graphics s') = dict_get b (graphics self))
    /\ plots s' = plots self
    /\ _lastx s' = _lastx self
    /\ xaxis_label s' = xaxis_label self
    /\ contents s' = contents self.
Proof.
  intros Hget. eexists. split.
  { unfold mouseAction. unfold bind at 1, modify at 1.
    unfold bind at 1. erewrite on_graphics_ok by exact Hget.
    erewrite on_graphics_ok; [reflexivity|].
    cbn [graphics set_graphics]. rewrite dict_get_alter, decide_True by done.
    cbn [graphics set_active_plot]. by rewrite Hget. }
  cbn [graphics plots active_plot _lastx xaxis_label contents
       set_graphics set_active_plot].
  rewrite dict_alter_alter.
  split; [done|]. split.
  { rewrite dict_get_alter, decide_True, Hget by done. done. }
  split; [|done].
  intros b Hb. by rewrite dict_get_alter, decide_False.
Qed.

(** The leave of chart 1 while chart 2 is the active plot. *)
Lemma C6_leave_deactivates_witness :
  exists s',
    mouseAction Leave 1%nat entered_twice = (Ok tt, s')
    /\ active_plot s' = None
    /\ dict_get 2%nat (graphics s') = dict_get 2%nat (graphics entered_twice).
Proof.
  destruct (C6_leave_deactivates entered_twice 1%nat
              (mkOpts (mkInfiniteLine 0 true) (mkInfiniteLine 0 true)
                      (mkAxisLabel true (mkQPointF 0 0) None) [5]))
    as (s' & Hrun & Hact & _ & Hother & _); [vm_compute; reflexivity|].
  exists s'. split; [done|]. split; [done|]. by apply Hother.
Defined.

End CrossScenarios.

(** ** The labels *)

Section LabelFacts.
Import Py Qt Labels.
Local Open Scope Z_scope.

Variable mapFromView : QPointF -> QPointF.

Ltac label_simpl :=
  cbn [cls digits label_str rect pos level _orient_v _orient_h _v_shift
       _h_shift size size_digits set_label_str_field set_pos
       set_level_field label value].

(** [update_label] on a plain [LevelLabel] *)
Lemma update_label_LevelLabel abs_pos lv offset self :
  cls self = LevelLabel_class ->
  update_label abs_pos lv offset self
  = (Ok tt,
     mkLevelLabel (cls self) (digits self)
       (replace "," " " (format_f false (digits self) lv))
       (rect self)
       (mkQPointF (_h_shift self * width (rect self) - offset)
                  (y abs_pos - _v_shift self * height (rect self) - offset))
       lv (_orient_v self) (_orient_h self) (_v_shift self) (_h_shift self)
       (size self) (size_digits self)).
Proof.
  destruct self. label_simpl. intros ->. reflexivity.
Qed.

(** C8: a drag of a level line with a plain [LevelLabel] to [newLevel]
    returns; afterwards the line and the label hold [newLevel], the text of
    the label is [newLevel] in the label's [digits] decimals, the measured
    box is the one it had, and the label sits at
    [(_h_shift * w - 1, y - _v_shift * h - 1)] for the width [w] and the
    height [h] of that box and the [y] the chart maps the level to. *)
Theorem C8_drag_updates_label newLevel self :
  cls (label self) = LevelLabel_class ->
  exists s',
    drag mapFromView newLevel self = (Ok tt, s')
    /\ value s' = newLevel
    /\ level (label s') = newLevel
    /\ label_str (label s')
       = replace "," " " (format_f false (digits (label self)) newLevel)
    /\ rect (label s') = rect (label self)
    /\ pos (label s')
       = mkQPointF
           (_h_shift (label self) * width (rect (label self)) - 1)
           (y (mapFromView (mkQPointF (float_of_Z 0) newLevel))
            - _v_shift (label self) * height (rect (label self)) - 1).
Proof.
  intros Hcls. eexists. split.
  { unfold drag, set_level, bind, modify, gets, on_label, update_from_data.
    label_simpl. rewrite update_label_LevelLabel by done. reflexivity. }
  label_simpl. done.
Qed.

(** C9: [set_label_str] of an [L1Label].  With a size of zero the call
    raises [ValueError] for every level and the text is not written; with
    any other size the text is the size in [size_digits] decimals, [" x "]
    and the level in [digits] decimals, every comma turned into a space. *)
Theorem C9_L1Label_text lv self :
  cls self = L1Label_class ->
  (PrimFloat.eqb (size self) 0 = true ->
   set_label_str lv self = (Raise ValueError, self))
  /\ (PrimFloat.eqb (size self) 0 = false ->
      set_label_str lv self
      = (Ok tt,
         set_label_str_field
           (replace "," " "
              (format_f false (size_digits self) (size self)
               +:+ " x " +:+ format_f true (digits self) lv))
           self)).
Proof.
  intros Hcls.
  unfold set_label_str, L1Label_set_label_str, bind, gets, try, modify,
    float_or, field_f.
  rewrite Hcls. split; intros ->; reflexivity.
Qed.

(** C10: [update_from_value] over a non-empty array.  For an [index] that
    is not strictly between the index of the first row and that of the last
    the call returns and the text is the one before; for an index strictly
    between them whose row holds the field, the text is the name, a colon
    and the datum in two decimals. *)
Theorem C10_text_only_strictly_inside name index array r0 rl self :
  item array 0 = Some r0 ->
  item array (-1) = Some rl ->
  (~ (Datum.index r0 < index < Datum.index rl) ->
   update_from_value name index array self = (Ok tt, self))
  /\ (Datum.index r0 < index < Datum.index rl ->
      forall row data,
        item array (index - Datum.index r0) = Some row ->
        Datum.field name row = Some data ->
        update_from_value name index array self
        = (Ok tt,
           mkContentsLabel (name +:+ ": " +:+ format_f false 2 data))).
Proof.
  intros H0 Hl.
  assert (update_from_value name index array self
          = (if (index <? Datum.index rl) && (index >? Datum.index r0)
             then
               row <- lift IndexError
                        (item array (index - Datum.index r0)) ;;
               data <- lift ValueError (Datum.field name row) ;;
               setText (name +:+ ": " +:+ format_f false 2 data)
             else ret tt)%py self) as ->.
  { unfold update_from_value. unfold bind at 1. rewrite H0.
    unfold lift at 1, ret at 1. unfold bind at 1. rewrite Hl. done. }
  split.
  - intros Hout.
    destruct (index <? Datum.index rl) eqn:E1;
      destruct (index >? Datum.index r0) eqn:E2; simpl; try done.
    apply Z.ltb_lt in E1. apply Z.gtb_lt in E2. lia.
  - intros Hin row data Hrow Hdata.
    rewrite (proj2 (Z.ltb_lt index (Datum.index rl))) by lia.
    rewrite (proj2 (Z.gtb_lt index (Datum.index r0))) by lia.
    unfold bind, lift, setText, modify. cbn [andb].
    rewrite Hrow. unfold ret at 1. cbv beta iota. by rewrite Hdata.
Qed.

(** The older [L1Label.set_label_str] of [_graphics.py]: the size field has
    no format, and a size of zero gives the text ["?"] in its place. *)
Lemma legacy_L1Label_unknown_size float_str lv self :
  PrimFloat.eqb (size self) 0 = true ->
  Legacy.L1Label_set_label_str float_str lv self
  = (Ok tt,
     set_label_str_field
       (replace "," " " ("? x " +:+ format_f true (digits self) lv)) self).
Proof.
  intros Hsize.
  unfold Legacy.L1Label_set_label_str, Legacy.plain_field, bind, gets, try,
    modify, float_or, field_f.
  by rewrite Hsize.
Qed.

End LabelFacts.

Section LabelScenarios.
Import Py Qt Labels.
Local Open Scope Z_scope.

(** The line at 100.00 dragged to 101.25. *)
Lemma C8_drag_updates_label_witness :
  exists s',
    drag to_scene 101.25 line_at_100 = (Ok tt, s')
    /\ value s' = 101.25%float
    /\ level (label s') = 101.25%float
    /\ label_str (label s') = "101.25"
    /\ rect (label s') = mkQRectF 40 12
    /\ pos (label s') = mkQPointF (-41) 100.25.
Proof.
  destruct (C8_drag_updates_label to_scene 101.25 line_at_100 eq_refl)
    as (s' & Hrun & Hv & Hl & Hstr & Hrect & Hpos).
  exists s'. rewrite Hv, Hl, Hstr, Hrect, Hpos.
  repeat split; [exact Hrun|vm_compute; reflexivity..].
Defined.

(** A new bid label asked for the text of the level 323.3. *)
Lemma C9_L1Label_text_witness :
  set_label_str 323.3 bid_label = (Raise ValueError, bid_label).
Proof.
  apply (C9_L1Label_text 323.3 bid_label); vm_compute; reflexivity.
Defined.

(** The index of the last row, 13, and an index between the first and the
    last, 11. *)
Lemma C10_text_only_strictly_inside_witness :
  update_from_value "rsi" 13 rsi_rows (mkContentsLabel "rsi: 0.00")
  = (Ok tt, mkContentsLabel "rsi: 0.00")
  /\ update_from_value "rsi" 11 rsi_rows (mkContentsLabel "rsi: 0.00")
     = (Ok tt, mkContentsLabel "rsi: 2.50").
Proof.
  destruct (C10_text_only_strictly_inside "rsi" 13 rsi_rows
              (Datum.mk 10 [("rsi", 1.5%float)])
              (Datum.mk 13 [("rsi", 4%float)])
              (mkContentsLabel "rsi: 0.00") eq_refl eq_refl) as [Hout _].
  destruct (C10_text_only_strictly_inside "rsi" 11 rsi_rows
              (Datum.mk 10 [("rsi", 1.5%float)])
              (Datum.mk 13 [("rsi", 4%float)])
              (mkContentsLabel "rsi: 0.00") eq_refl eq_refl) as [_ Hin].
  split.
  - apply Hout. vm_compute. intros [_ H]. discriminate H.
  - apply (Hin ltac:(vm_compute; split; reflexivity)
               (Datum.mk 11 [("rsi", 2.5%float)]) 2.5%float eq_refl eq_refl).
Defined.

End LabelScenarios.

(** ** The first draw, [paint] and the graphics kept in step with the data *)

Section DrawFacts.
Import Py Qt Bars BarsDraw.
Local Open Scope Z_scope.

Ltac bar_simpl :=
  cbn [Bars.last lines index w history
       set_last set_lines set_index set_history].

Lemma compile_app a b : compile (a ++ b) = compile a ++ compile b.
Proof. unfold compile, ravel. by rewrite bind_app, filter_app. Qed.

Lemma take_last_split {A} (l : list A) x :
  list.last l = Some x -> l = take (length l - 1) l ++ [x].
Proof.
  intros H. destruct (last_Some l x) as [[l' ->] _]; [done|].
  rewrite length_app. simpl.
  replace (length l' + 1 - 1)%nat with (length l') by lia.
  by rewrite take_app_length.
Qed.

Lemma drop_last_one {A} (l : list A) x :
  list.last l = Some x -> drop (length l - 1) l = [x].
Proof.
  intros H. destruct (last_Some l x) as [[l' ->] _]; [done|].
  rewrite length_app. simpl.
  replace (length l' + 1 - 1)%nat with (length l') by lia.
  by rewrite drop_app_length.
Qed.

(** The history draw of [draw_from_data], up to the row before the
    cursor. *)
Lemma draw_lines_history self :
  1 <= index self <= len (lines self) ->
  draw_lines 0 (Some (index self - 1)) true self
  = ((drawLines (history self)
        (compile (take (Z.to_nat (index self - 1)) (lines self)))).1,
     set_history
       (drawLines (history self)
          (compile (take (Z.to_nat (index self - 1)) (lines self)))).2
       self).
Proof.
  intros Hi.
  assert (or_else (Some (index self - 1)) (index self - 1) = index self - 1)
    as Hor.
  { unfold or_else. by destruct (index self - 1 =? 0). }
  assert (slice (lines self) 0 (index self - 1)
          = take (Z.to_nat (index self - 1)) (lines self)) as Hslice.
  { replace (index self - 1) with (Z.of_nat (Z.to_nat (index self - 1)))
      at 1 by lia.
    apply slice_prefix. unfold len in Hi. lia. }
  unfold draw_lines. rewrite Hor, Hslice. reflexivity.
Qed.

Lemma draw_lines_last_upto self :
  draw_lines 0 (Some (index self)) false self = draw_lines 0 None false self.
Proof.
  unfold draw_lines.
  assert (or_else (Some (index self)) (index self) = or_else None (index self))
    as ->; [|done].
  unfold or_else. by destruct (index self =? 0).
Qed.

(** What [draw_from_data] leaves for data that fit the table. *)
Lemma draw_from_data_run self data q :
  (length data <= length (lines self))%nat ->
  list.last data = Some q ->
  draw_from_data data 0 self
  = if decide (length data = 1%nat) then
      (Raise TypeError,
       mkBarItems (w self) (Bars.last self) (Bars.paint (history self) [])
         (map (bar_lines (w self)) data ++ drop (length data) (lines self))
         (len data))
    else
      (Ok tt,
       mkBarItems (w self)
         (Bars.paint (Bars.last self) (compile [bar_lines (w self) q]))
         (Bars.paint (history self)
            (compile (map (bar_lines (w self))
                          (take (length data - 1) data))))
         (map (bar_lines (w self)) data ++ drop (length data) (lines self))
         (len data)).
Proof.
  intros Hfit Hlast.
  assert (1 <= length data)%nat as Hn.
  { destruct data; [done|simpl; lia]. }
  unfold draw_from_data. unfold bind at 1, gets at 1.
  rewrite bars_from_ohlc_map.
  set (new := map (bar_lines (w self)) data).
  assert (length new = length data) as Hlen by apply length_map.
  unfold bind at 1.
  change 0 with (Z.of_nat 0) at 1.
  replace (len new) with (Z.of_nat 0 + len new) at 1 by (unfold len; lia).
  rewrite assign_rows_fit by (simpl; lia).
  simpl take. simpl Nat.add. rewrite app_nil_l, Hlen.
  unfold bind at 1, modify at 1. unfold bind at 1, gets at 1.
  set (rows := new ++ drop (length data) (lines self)).
  assert (length rows = length (lines self)) as Hrows.
  { unfold rows. rewrite length_app, length_drop. lia. }
  replace (len new) with (len data) by (unfold len; by rewrite Hlen).
  set (s1 := set_index (len data) (set_lines rows self)).
  assert (index s1 = Z.of_nat (length data)) as Hi1 by done.
  assert (lines s1 = rows) as Hl1 by done.
  unfold bind at 1.
  rewrite draw_lines_history by (rewrite Hi1, Hl1; unfold len; lia).
  rewrite Hi1, Hl1.
  replace (Z.to_nat (Z.of_nat (length data) - 1))
    with (length data - 1)%nat by lia.
  assert (take (length data - 1) rows
          = map (bar_lines (w self)) (take (length data - 1) data)) as ->.
  { unfold rows. rewrite take_app_le by lia.
    unfold new. apply firstn_map. }
  unfold drawLines at 1 2.
  destruct (decide (length data = 1%nat)) as [Hone|Hmore].
  { rewrite Hone. reflexivity. }
  rewrite drawable_compile; cycle 1.
  { intros Hnil. apply (f_equal length) in Hnil.
    rewrite length_map, length_take in Hnil. simpl in Hnil. lia. }
  { intros r Hr. apply list_elem_of_fmap in Hr as (b & -> & _).
    apply is_bar_row_bar_lines. }
  cbn [fst snd]. unfold bind at 1, gets at 1.
  rewrite draw_lines_last_upto.
  rewrite (draw_lines_last _ (bar_lines (w self) q)).
  - reflexivity.
  - unfold s1. bar_simpl. unfold len. lia.
  - unfold s1. bar_simpl. unfold len.
    replace (Z.to_nat (Z.of_nat (length data) - 1))
      with (length data - 1)%nat by lia.
    unfold rows. rewrite lookup_app_l by lia.
    unfold new. rewrite list_lookup_fmap.
    rewrite (take_last_split _ _ Hlast) at 2.
    rewrite lookup_app_r by (rewrite length_take; lia).
    rewrite length_take.
    by replace (length data - 1 - (length data - 1) `min` length data)%nat
      with 0%nat by lia.
  - apply is_bar_row_bar_lines.
Qed.



(** The first draw leaves the graphics in step with the data. *)
Lemma draw_from_data_sync self data :
  (2 <= length data <= length (lines self))%nat ->
  Ohlc.index <$> list.last data = Some (len data - 1) ->
  exists self',
    draw_from_data data 0 self = (Ok tt, self') /\ in_sync self' data.
Proof.
  intros Hfit Hlast.
  destruct (list.last data) as [q|] eqn:E; [|done].
  rewrite (draw_from_data_run _ _ q) by (done || lia).
  rewrite decide_False by lia.
  eexists. split; [done|].
  split; bar_simpl; try done.
  - rewrite length_app, length_map, length_drop. lia.
  - by rewrite E.
  - by rewrite take_app_length' by (by rewrite length_map).
  - by rewrite (drop_last_one _ _ E).
Qed.

Lemma in_sync_shows_bars self array : in_sync self array -> shows_bars self.
Proof.
  intros [Hidx Hfit _ Hlines _ _] k r Hk Hr.
  rewrite Hidx in Hk. unfold len in Hk. rewrite Nat2Z.id in Hk.
  rewrite <- (lookup_take_lt _ (length array)) in Hr by done.
  rewrite Hlines, list_lookup_fmap in Hr.
  destruct (array !! k); [|done].
  injection Hr as <-. apply is_bar_row_bar_lines.
Qed.


Lemma paint_sync self array :
  in_sync self array ->
  BarsDraw.paint self = compile (map (bar_lines (w self)) array).
Proof.
  intros [_ _ _ _ Hhist Hpic]. unfold BarsDraw.paint.
  by rewrite Hhist, Hpic, <- compile_app, <- map_app, take_drop.
Qed.

(** [draw_from_data] with [start = 0], for data that fit the table and
    are not empty: the cursor is the number of records; row [k] of the
    table holds the lines of record [k], whatever its index and prices, and
    the rows after them are the ones before; the history picture holds the
    lines of all records but the last.  With two records or more the call
    returns and the other picture holds the lines of the last record; with
    one record the history has no line to draw, the call raises
    [TypeError], and the other picture is the one before. *)
Theorem draw_from_data_table self data q :
  (length data <= length (lines self))%nat ->
  list.last data = Some q ->
  exists out self',
    draw_from_data data 0 self = (out, self')
    /\ index self' = len data
    /\ (forall k b, data !! k = Some b ->
                    lines self' !! k = Some (bar_lines (w self) b))
    /\ (forall k, (length data <= k)%nat ->
                  lines self' !! k = lines self !! k)
    /\ commands (history self')
       = compile (map (bar_lines (w self)) (take (length data - 1) data))
    /\ w self' = w self
    /\ ((2 <= length data)%nat ->
        out = Ok tt
        /\ commands (Bars.last self') = compile [bar_lines (w self) q])
    /\ (length data = 1%nat ->
        out = Raise TypeError /\ Bars.last self' = Bars.last self).
Proof.
  intros Hfit Hlast. rewrite (draw_from_data_run _ _ q) by done.
  assert (forall k b, data !! k = Some b ->
            (map (bar_lines (w self)) data
               ++ drop (length data) (lines self)) !! k
            = Some (bar_lines (w self) b)) as Hrows.
  { intros k b Hb. pose proof (lookup_lt_Some _ _ _ Hb).
    rewrite lookup_app_l by (by rewrite length_map).
    by rewrite list_lookup_fmap, Hb. }
  assert (forall k, (length data <= k)%nat ->
            (map (bar_lines (w self)) data
               ++ drop (length data) (lines self)) !! k
            = lines self !! k) as Hrest.
  { intros k Hk. rewrite lookup_app_r by (by rewrite length_map).
    rewrite length_map, lookup_drop. f_equal. lia. }
  destruct (decide (length data = 1%nat)) as [Hone|Hmore].
  - eexists _, _. split; [done|]. bar_simpl.
    split; [done|]. split; [done|]. split; [done|].
    split; [by rewrite Hone|]. split; [done|].
    split; [lia|done].
  - eexists _, _. split; [done|]. bar_simpl.
    split; [done|]. split; [done|]. split; [done|].
    split; [done|]. split; [done|]. split; [done|lia].
Qed.

(** [draw_from_data] for two or more records that do not fit the table:
    [ValueError], and nothing is written. *)
Theorem draw_from_data_no_room self data :
  (length (lines self) < length data)%nat ->
  (2 <= length data)%nat ->
  draw_from_data data 0 self = (Raise ValueError, self).
Proof.
  intros Hcap Hn.
  unfold draw_from_data. unfold bind at 1, gets at 1.
  rewrite bars_from_ohlc_map.
  set (new := map (bar_lines (w self)) data).
  assert (length new = length data) as Hnew by apply length_map.
  unfold bind at 1. unfold assign_rows.
  rewrite !bound_nonneg by (unfold len; lia).
  rewrite decide_False by (unfold len; lia).
  destruct new as [|r1 [|r2 new]]; simpl in Hnew; try done; lia.
Qed.

(** After [draw_from_data], with [start = 0], of two or more numbered
    records that fit the table, [paint] draws the lines of every record
    once, in the order of the records. *)
Theorem paint_after_draw_from_data self data :
  (2 <= length data <= length (lines self))%nat ->
  Ohlc.index <$> list.last data = Some (len data - 1) ->
  exists self',
    draw_from_data data 0 self = (Ok tt, self')
    /\ in_sync self' data
    /\ BarsDraw.paint self' = compile (map (bar_lines (w self)) data).
Proof.
  intros Hfit Hlast.
  destruct (draw_from_data_sync _ _ Hfit Hlast) as (self' & Hrun & Hsync).
  exists self'. split; [done|]. split; [done|].
  rewrite (paint_sync _ _ Hsync). f_equal. f_equal.
  destruct (list.last data) as [q|] eqn:E; [|done].
  rewrite (draw_from_data_run _ _ q) in Hrun by (done || lia).
  rewrite decide_False in Hrun by lia.
  by injection Hrun as <-.
Qed.


(** On graphics that hold no bar, [update_from_array] of numbered data
    that fit the table does what [draw_from_data] does. *)
Theorem first_update_is_draw_from_data self data q :
  index self = 0 ->
  (length data <= length (lines self))%nat ->
  list.last data = Some q ->
  Ohlc.index q = len data - 1 ->
  update_from_array data false self = draw_from_data data 0 self.
Proof.
  intros Hidx Hfit Hlast Hqi.
  assert (1 <= length data)%nat as Hn.
  { destruct data; [done|simpl; lia]. }
  assert (appended self data
          = map (bar_lines (w self)) data
              ++ drop (length data) (lines self)) as Happ.
  { unfold appended. rewrite Hidx. simpl Z.to_nat. simpl take.
    by rewrite drop_0, app_nil_l. }
  rewrite (draw_from_data_run _ _ q) by done.
  rewrite (update_append_outcome _ _ _ q);
    [|intros k r Hk; rewrite Hidx in Hk; simpl in Hk; lia
     |rewrite Hidx; unfold len; lia|unfold len; lia|done].
  destruct (decide (length data = 1%nat)) as [Hone|Hmore].
  - rewrite decide_True by (unfold len; lia). by rewrite Happ.
  - rewrite decide_False by (unfold len; lia).
    rewrite decide_True by (by right).
    rewrite Happ, take_app_le by (rewrite length_map; lia).
    by rewrite firstn_map.
Qed.

(** With [just_history] on, new records after the ones shown reach the
    table and the history picture, and the picture of the last bar is not
    drawn again: [paint] draws the lines of all records but the new last
    one, and then once more those of the last record shown before. *)
Theorem just_history_keeps_last_picture self array e q :
  in_sync self array ->
  e <> [] ->
  (length (array ++ e) <= length (lines self))%nat ->
  list.last array = Some q ->
  exists self',
    update_from_array (array ++ e) true self = (Ok tt, self')
    /\ index self' = len (array ++ e)
    /\ Bars.last self' = Bars.last self
    /\ BarsDraw.paint self'
       = compile (map (bar_lines (w self))
                      (take (length (array ++ e) - 1) (array ++ e)))
         ++ compile [bar_lines (w self) q].
Proof.
  intros Hsync He Hfit Hq.
  pose proof (in_sync_shows_bars _ _ Hsync) as Hbars0.
  assert (1 <= length array)%nat as Hna by (destruct array; [done|simpl; lia]).
  destruct Hsync as [Hidx Hfit0 _ Hlines Hhist Hpic].
  assert (1 <= length e)%nat as Hle by (destruct e; [done|simpl; lia]).
  destruct (list.last (array ++ e)) as [q'|] eqn:Hq'; cycle 1.
  { apply last_None in Hq'. by destruct array. }
  eexists. split.
  { apply (update_append_spec _ _ _ q');
      [exact Hbars0
      |unfold len; rewrite length_app; lia
      |rewrite Hidx; unfold len; rewrite length_app; lia
      |unfold len; lia|done|by left]. }
  cbv zeta. bar_simpl. split; [done|]. split; [done|].
  unfold BarsDraw.paint. bar_simpl.
  rewrite Hpic, (drop_last_one _ _ Hq). f_equal.
  cbn [commands Bars.paint]. f_equal.
  assert (take (length (array ++ e)) (appended self (array ++ e))
          = map (bar_lines (w self)) (array ++ e)) as Htake.
  { unfold appended. rewrite Hidx. unfold len. rewrite Nat2Z.id.
    rewrite Hlines, drop_app_length, app_assoc, <- map_app.
    apply take_app_length'. by rewrite length_map. }
  by rewrite <- firstn_map, <- Htake, take_take, Nat.min_l by lia.
Qed.

(** An array with no record beyond the cursor: an empty one gives
    [IndexError], one whose last record is not numbered by the cursor
    gives [AssertionError], and in both cases nothing is changed. *)
Theorem update_from_array_nothing_new self array just_history :
  len array <= index self ->
  (array = [] ->
   update_from_array array just_history self = (Raise IndexError, self))
  /\ (forall q, list.last array = Some q ->
                Ohlc.index q <> index self - 1 ->
                update_from_array array just_history self
                = (Raise AssertionError, self)).
Proof.
  intros Hlen.
  assert (update_from_array array just_history self
          = current_bar_update (index self) array self) as ->.
  { unfold update_from_array. unfold bind at 1, gets at 1.
    destruct (Z.ltb_spec 0 (len array - index self)); [lia|].
    reflexivity. }
  split.
  - by intros ->.
  - intros q Hq Hi. by apply (current_bar_update_assert _ _ _ q).
Qed.

(** [bars_from_ohlc] from record [start] on: as many rows as records, the
    first [start] of them the zeros of the new array, the others the lines
    of the records from [start] on. *)
Theorem bars_from_ohlc_start data w start :
  bars_from_ohlc data w start
  = replicate (start `min` length data) (Zero, Zero, Zero)
    ++ map (bar_lines w) (drop start data).
Proof.
  unfold bars_from_ohlc, _mk_lines_array.
  destruct (decide (start <= length data)%nat) as [Hle|Hgt].
  - rewrite bars_loop_spec by (rewrite length_replicate, length_drop; lia).
    by rewrite take_replicate.
  - rewrite drop_ge by lia. simpl. rewrite app_nil_r. f_equal. lia.
Qed.

End DrawFacts.

Section DrawScenarios.
Import Py Qt Bars BarsDraw.
Local Open Scope Z_scope.

(** The three bars of the scenario, and its first bar alone. *)
Lemma draw_from_data_table_witness :
  (exists self',
     draw_from_data scenario 0 init = (Ok tt, self')
     /\ index self' = 3
     /\ lines self' !! 1%nat
        = Some (bar_lines (w init) (Ohlc.mk 1 11 11 11 11 0))
     /\ lines self' !! 3%nat = lines init !! 3%nat
     /\ commands (Bars.last self')
        = compile [bar_lines (w init) (Ohlc.mk 2 11 14 10 13 0)])
  /\ (exists self',
        draw_from_data (take 1 scenario) 0 init = (Raise TypeError, self')
        /\ index self' = 1
        /\ Bars.last self' = Bars.last init).
Proof.
  split.
  - destruct (draw_from_data_table init scenario (Ohlc.mk 2 11 14 10 13 0))
      as (out & self' & Hrun & Hidx & Hrows & Hrest & _ & _ & Hmore & _).
    + apply Nat.leb_le. vm_compute. reflexivity.
    + reflexivity.
    + destruct Hmore as [-> Hlast]; [simpl; lia|].
      exists self'. split; [exact Hrun|]. split; [exact Hidx|].
      split; [by apply Hrows|]. split; [|exact Hlast].
      apply Hrest. simpl. lia.
  - destruct (draw_from_data_table init (take 1 scenario)
                (Ohlc.mk 0 10 12 9 11 0))
      as (out & self' & Hrun & Hidx & _ & _ & _ & _ & _ & Hone).
    + apply Nat.leb_le. vm_compute. reflexivity.
    + reflexivity.
    + destruct Hone as [-> Hlast]; [reflexivity|].
      exists self'. split; [exact Hrun|]. split; [exact Hidx|exact Hlast].
Defined.

Lemma draw_from_data_no_room_witness :
  draw_from_data overlong 0 init = (Raise ValueError, init).
Proof.
  apply (draw_from_data_no_room init overlong);
    apply Nat.leb_le; vm_compute; reflexivity.
Defined.

Lemma paint_after_draw_from_data_witness :
  exists self',
    draw_from_data scenario 0 init = (Ok tt, self')
    /\ BarsDraw.paint self' = compile (map (bar_lines (w init)) scenario).
Proof.
  destruct (paint_after_draw_from_data init scenario)
    as (self' & Hrun & _ & Hpaint).
  - split; apply Nat.leb_le; vm_compute; reflexivity.
  - reflexivity.
  - exists self'. split; [exact Hrun|exact Hpaint].
Defined.


Lemma first_update_is_draw_from_data_witness :
  update_from_array scenario false init = draw_from_data scenario 0 init.
Proof.
  apply (first_update_is_draw_from_data init scenario
           (Ohlc.mk 2 11 14 10 13 0));
    [reflexivity|apply Nat.leb_le; vm_compute; reflexivity
    |reflexivity|reflexivity].
Defined.

(** The third bar of the scenario comes with [just_history] on: the flat
    second bar is drawn by both pictures and the third by none. *)
Lemma just_history_keeps_last_picture_witness :
  exists self',
    update_from_array scenario true drawn = (Ok tt, self')
    /\ index self' = 3
    /\ BarsDraw.paint self'
       = compile (map (bar_lines (w drawn)) (take 2 scenario))
         ++ compile [bar_lines (w drawn) (Ohlc.mk 1 11 11 11 11 0)].
Proof.
  destruct (just_history_keeps_last_picture drawn (take 2 scenario)
              [Ohlc.mk 2 11 14 10 13 0] (Ohlc.mk 1 11 11 11 11 0))
    as (self' & Hrun & Hidx & _ & Hpaint).
  - split; [vm_compute; reflexivity|apply Nat.leb_le; vm_compute; reflexivity
           |vm_compute; reflexivity..].
  - discriminate.
  - apply Nat.leb_le. vm_compute. reflexivity.
  - reflexivity.
  - exists self'. split; [exact Hrun|]. split; [exact Hidx|exact Hpaint].
Defined.

(** The first two bars of the scenario again, when three are shown. *)
Lemma update_from_array_nothing_new_witness :
  update_from_array [] false three_bars = (Raise IndexError, three_bars)
  /\ update_from_array (take 2 scenario) false three_bars
     = (Raise AssertionError, three_bars).
Proof.
  split.
  - apply (update_from_array_nothing_new three_bars [] false);
      [vm_compute; discriminate|reflexivity].
  - apply (update_from_array_nothing_new three_bars (take 2 scenario) false)
      with (q := Ohlc.mk 1 11 11 11 11 0);
      [vm_compute; discriminate|reflexivity|vm_compute; discriminate].
Defined.

End DrawScenarios.

(** ** Sequences of crosshair events *)

Section DictFacts.
Import Py Qt Cross CrossEvents.

Lemma keys_alter {V} (f : V -> V) k (d : dict V) :
  keys (dict_alter f k d) = keys d.
Proof.
  unfold keys. induction d as [|[k0 v0] d IH]; simpl; [done|].
  destruct (decide (k = k0)); simpl; by rewrite ?IH.
Qed.

Lemma keys_map {V} (f : V -> V) (d : dict V) :
  keys (map (fun kv => (kv.1, f kv.2)) d) = keys d.
Proof.
  unfold keys. induction d as [|[k0 v0] d IH]; simpl; by rewrite ?IH.
Qed.

Lemma keys_set {V} k (v : V) (d : dict V) :
  keys (dict_set k v d)
  = match dict_get k d with Some _ => keys d | None => keys d ++ [k] end.
Proof.
  unfold keys. induction d as [|[k0 v0] d IH]; simpl; [done|].
  destruct (decide (k = k0)) as [->|Hne]; simpl; [done|].
  rewrite IH. by destruct (dict_get k d).
Qed.

Lemma dict_get_keys {V} k (d : dict V) :
  is_Some (dict_get k d) <-> k ∈ keys d.
Proof.
  unfold keys. induction d as [|[k0 v0] d IH]; simpl.
  - split; [by intros [? ?]|by intros ?%elem_of_nil].
  - rewrite elem_of_cons. destruct (decide (k = k0)) as [->|Hne].
    + split; eauto.
    + rewrite IH. split; [by right|by intros [?|?]].
Qed.

Lemma dict_alter_fixed {V} (f : V -> V) k (d : dict V) v :
  dict_get k d = Some v -> f v = v -> dict_alter f k d = d.
Proof.
  induction d as [|[k0 v0] d IH]; simpl; [done|].
  destruct (decide (k = k0)) as [->|Hne].
  - intros [= ->] ->. done.
  - intros Hget Hf. by rewrite IH.
Qed.

Lemma last_key_keys {V} (d : dict V) before :
  last_key d before = default before (list.last (keys d)).
Proof.
  unfold last_key, keys.
  induction d as [|[k0 v0] [|[k1 v1] d] IH]; simpl in *; done.
Qed.

Lemma follow_follow pos v o : follow pos v (follow pos v o) = follow pos v o.
Proof. by destruct o. Qed.

Lemma follow_snap pos v ix o :
  follow pos v (snap ix (follow pos v o)) = snap ix (follow pos v o).
Proof. by destruct o. Qed.

Lemma keys_nil {V} (d : dict V) : keys d = [] -> d = [].
Proof. by destruct d. Qed.

End DictFacts.

Section EventFacts.
Import Py Qt Cross CrossEvents.
Local Open Scope Z_scope.

Variable mapToView : plot -> QPointF -> QPointF.
Variable mapFromView : plot -> QPointF -> QPointF.

Ltac cross_simpl :=
  cbn [graphics plots active_plot digits _lastx xaxis_label contents
       set_graphics set_plots set_active_plot set_lastx set_xaxis_label
       set_contents].

(** [on_graphics] keeps the plots of the dict, whether it returns or
    raises. *)
Lemma on_graphics_keys p f self :
  keys (graphics (on_graphics p f self).2) = keys (graphics self)
  /\ plots (on_graphics p f self).2 = plots self
  /\ active_plot (on_graphics p f self).2 = active_plot self
  /\ xaxis_label (on_graphics p f self).2 = xaxis_label self
  /\ _lastx (on_graphics p f self).2 = _lastx self.
Proof.
  unfold on_graphics, graphics_item, bind, gets, modify, lift.
  destruct (dict_get p (graphics self)); simpl; [|done].
  by rewrite keys_alter.
Qed.

(** [add_plot] returns, whatever the state. *)
Lemma add_plot_run p d self :
  add_plot mapFromView p d self
  = (Ok tt,
     mkCrossHair (dict_set p new_opts (graphics self)) (plots self ++ [p])
       (active_plot self) (Cross.digits self) (_lastx self)
       (Some (mkAxisLabel true
                (mapFromView (default p (head (plots self)))
                             (mkQPointF 0 0)) None))
       (contents self)).
Proof.
  unfold add_plot, bind, modify, gets, lift. cross_simpl.
  assert (item (plots self ++ [p]) 0 = Some (default p (head (plots self))))
    as ->.
  { rewrite item_nonneg by done. by destruct (plots self). }
  reflexivity.
Qed.

Lemma mouseMoved_inactive pos self :
  active_plot self = None ->
  mouseMoved mapToView mapFromView pos self = (Ok tt, self).
Proof.
  intros Hact. unfold mouseMoved. unfold bind at 1, gets at 1.
  by rewrite Hact.
Qed.

(** [round(x)] raises for an x that is nan or infinite: the horizontal
    line and the y-axis label have moved by then. *)
Lemma mouseMoved_round_raises self p o pos e :
  active_plot self = Some p ->
  dict_get p (graphics self) = Some o ->
  round (x (mapToView p pos)) = Raise e ->
  mouseMoved mapToView mapFromView pos self
  = (Raise e,
     set_graphics
       (dict_alter (follow pos (y (mapToView p pos))) p (graphics self))
       self).
Proof.
  destruct self as [g ps ap dg lx xl ct]. cross_simpl.
  intros -> Hget Hround.
  unfold mouseMoved. unfold bind at 1, gets at 1. cross_simpl.
  unfold bind at 1. rewrite (on_graphics_ok _ _ _ o) by done.
  unfold bind at 1.
  erewrite on_graphics_ok; cycle 1.
  { cross_simpl. rewrite dict_get_alter, decide_True by done.
    by rewrite Hget. }
  cross_simpl. rewrite dict_alter_alter.
  unfold bind at 1, gets at 1. cross_simpl.
  unfold bind at 1, try at 1. by rewrite Hround.
Qed.

(** What no [mouseMoved] changes, whether it returns or raises. *)
Lemma mouseMoved_frame pos self :
  let s' := (mouseMoved mapToView mapFromView pos self).2 in
  keys (graphics s') = keys (graphics self)
  /\ plots s' = plots self
  /\ active_plot s' = active_plot self
  /\ (is_Some (xaxis_label self) -> is_Some (xaxis_label s')).
Proof.
  destruct (active_plot self) as [p|] eqn:Hact; cycle 1.
  { by rewrite mouseMoved_inactive. }
  destruct (dict_get p (graphics self)) as [o|] eqn:Hget; cycle 1.
  { by rewrite (mouseMoved_KeyError _ _ _ p). }
  destruct (round (x (mapToView p pos))) as [ix|e] eqn:Hround; cycle 1.
  { rewrite (mouseMoved_round_raises _ p o _ e) by done.
    cbv zeta. cbn [snd]. cross_simpl. by rewrite keys_alter. }
  rewrite (mouseMoved_active _ _ _ p o _ ix) by done. cbv zeta.
  destruct (decide (Some ix = _lastx self)).
  { cbn [snd]. cross_simpl. by rewrite !keys_alter. }
  destruct (xaxis_label self) as [xl|]; cbn [snd]; cross_simpl;
    rewrite keys_map, !keys_alter; (repeat split; try done); eauto.
Qed.

Lemma mouseAction_run a p self o :
  dict_get p (graphics self) = Some o ->
  mouseAction a p self
  = (Ok tt,
     set_graphics
       (dict_alter
          (fun o => set_yl (label_show (match a with Enter => true | Leave => false end) (yl o))
                      (set_hl (line_show (match a with Enter => true | Leave => false end) (hl o))
                              o))
          p (graphics self))
       (set_active_plot (match a with Enter => Some p | Leave => None end) self)).
Proof.
  intros Hget. destruct a.
  all: unfold mouseAction; unfold bind at 1, modify at 1;
    unfold bind at 1; erewrite on_graphics_ok by exact Hget;
    (erewrite on_graphics_ok;
     [|cbn [graphics set_graphics]; rewrite dict_get_alter, decide_True by done;
       cbn [graphics set_active_plot]; by rewrite Hget]);
    cross_simpl; by rewrite dict_alter_alter.
Qed.

(** In every state of a crosshair the active plot was added, and the
    x-axis label exists once a plot was added. *)
Lemma reachable_inv self :
  reachable mapToView mapFromView self ->
  (forall p, active_plot self = Some p ->
             is_Some (dict_get p (graphics self)))
  /\ (graphics self <> [] -> is_Some (xaxis_label self)).
Proof.
  induction 1 as [d|ev self Hreach [IHact IHxl] Hwired].
  { split; [by intros p [=]|done]. }
  destruct ev as [p d|p i|a p|pos]; cbn [handle].
  - rewrite add_plot_run. cbn [snd]. cross_simpl. split; [|eauto].
    intros q Hq. rewrite dict_get_set. case_decide; [eauto|by apply IHact].
  - pose proof (on_graphics_keys p
                  (fun o => set_cursors (cursors o ++ [i]) o) self)
      as (Hk & _ & Ha & Hx & _).
    unfold add_curve_cursor. rewrite Ha, Hx. split.
    + intros q Hq. apply dict_get_keys. rewrite Hk.
      apply dict_get_keys. by apply IHact.
    + intros Hne. apply IHxl. intros Hg. apply Hne.
      apply keys_nil. by rewrite Hk, Hg.
  - destruct (Hwired a p eq_refl) as [o Hget].
    rewrite (mouseAction_run _ _ _ o) by done. cbn [snd]. cross_simpl. split.
    + intros q Hq. rewrite dict_get_alter.
      destruct a; simplify_eq/=.
      rewrite decide_True by done. rewrite Hget. eauto.
    + intros Hne. apply IHxl. intros Hg. by rewrite Hg in Hget.
  - pose proof (mouseMoved_frame pos self) as (Hk & _ & Ha & Hx).
    split.
    + intros q Hq. apply dict_get_keys. rewrite Hk.
      apply dict_get_keys. apply IHact. by rewrite <- Ha.
    + intros Hne. apply Hx, IHxl. intros Hg. apply Hne.
      apply keys_nil. by rewrite Hk, Hg.
Qed.

(** In every state a crosshair can reach, [mouseMoved] returns unless the x
    of the pointer is nan or infinite, in which case it raises what
    [round] raises: [KeyError] and [AttributeError] do not occur. *)
Theorem mouseMoved_outcome pos self :
  reachable mapToView mapFromView self ->
  (mouseMoved mapToView mapFromView pos self).1
  = match active_plot self with
    | None => Ok tt
    | Some p =>
        match round (x (mapToView p pos)) with
        | Ok _ => Ok tt
        | Raise e => Raise e
        end
    end.
Proof.
  intros Hreach. destruct (reachable_inv _ Hreach) as [Hact Hxl].
  destruct (active_plot self) as [p|] eqn:Ha; cycle 1.
  { by rewrite mouseMoved_inactive. }
  destruct (Hact p eq_refl) as [o Hget].
  destruct (round (x (mapToView p pos))) as [ix|e] eqn:Hround; cycle 1.
  { by rewrite (mouseMoved_round_raises _ p o _ e). }
  rewrite (mouseMoved_active _ _ _ p o _ ix) by done. cbv zeta.
  destruct (decide (Some ix = _lastx self)); [done|].
  destruct Hxl as [xl ->]; [|done].
  intros Hg. by rewrite Hg in Hget.
Qed.

(** A [mouseMoved] that returned, sent again for the same position, returns
    and changes nothing. *)
Theorem mouseMoved_again pos self s1 :
  mouseMoved mapToView mapFromView pos self = (Ok tt, s1) ->
  mouseMoved mapToView mapFromView pos s1 = (Ok tt, s1).
Proof.
  intros Hrun.
  destruct (active_plot self) as [p|] eqn:Ha; cycle 1.
  { rewrite mouseMoved_inactive in Hrun by done.
    injection Hrun as <-. by apply mouseMoved_inactive. }
  destruct (dict_get p (graphics self)) as [o|] eqn:Hget; cycle 1.
  { by rewrite (mouseMoved_KeyError _ _ _ p) in Hrun. }
  destruct (round (x (mapToView p pos))) as [ix|e] eqn:Hround; cycle 1.
  { by rewrite (mouseMoved_round_raises _ p o _ e) in Hrun. }
  rewrite (mouseMoved_active _ _ _ p o _ ix) in Hrun by done.
  cbv zeta in Hrun. rewrite dict_alter_alter in Hrun.
  change (fun v => set_yl (update_label pos (y (mapToView p pos))
                             (yl (set_hl (setPos (y (mapToView p pos))
                                                 (hl v)) v)))
                     (set_hl (setPos (y (mapToView p pos)) (hl v)) v))
    with (follow pos (y (mapToView p pos))) in Hrun.
  set (f := follow pos (y (mapToView p pos))) in *.
  assert (exists o1, active_plot s1 = Some p /\ _lastx s1 = Some ix
                     /\ dict_get p (graphics s1) = Some o1 /\ f o1 = o1)
    as (o1 & Ha1 & Hl1 & Hget1 & Hfix).
  { destruct (decide (Some ix = _lastx self)).
    - injection Hrun as <-. exists (f o). cross_simpl.
      rewrite dict_get_alter, decide_True, Hget by done.
      repeat split; first [done|apply follow_follow].
    - destruct (xaxis_label self) as [xl|]; [|done].
      injection Hrun as <-. exists (snap ix (f o)). cross_simpl.
      rewrite dict_get_map, dict_get_alter, decide_True, Hget by done.
      repeat split; first [done|apply follow_snap]. }
  rewrite (mouseMoved_active _ _ _ p o1 _ ix) by done. cbv zeta.
  rewrite dict_alter_alter.
  change (fun v => set_yl (update_label pos (y (mapToView p pos))
                             (yl (set_hl (setPos (y (mapToView p pos))
                                                 (hl v)) v)))
                     (set_hl (setPos (y (mapToView p pos)) (hl v)) v))
    with f.
  rewrite (dict_alter_fixed f p _ o1) by done.
  rewrite decide_True by done.
  destruct s1. cross_simpl. simpl in Hl1. by rewrite Hl1.
Qed.

(** The leave of an added plot undoes its enter: an enter followed by the
    leave is the leave alone, and on a crosshair with no active plot and
    that plot's horizontal line and y-axis label hidden, as [add_plot]
    leaves them, the two together change nothing. *)
Theorem enter_then_leave self p o :
  dict_get p (graphics self) = Some o ->
  (mouseAction Enter p ;; mouseAction Leave p)%py self
  = mouseAction Leave p self
  /\ (active_plot self = None -> visible (hl o) = false ->
      shown (yl o) = false ->
      (mouseAction Enter p ;; mouseAction Leave p)%py self = (Ok tt, self)).
Proof.
  intros Hget.
  assert ((mouseAction Enter p ;; mouseAction Leave p)%py self
          = mouseAction Leave p self) as Heq.
  { unfold bind. rewrite (mouseAction_run Enter _ _ o) by done.
    erewrite mouseAction_run; cycle 1.
    { cross_simpl. rewrite dict_get_alter, decide_True by done.
      by rewrite Hget. }
    rewrite (mouseAction_run Leave _ _ o) by done.
    cross_simpl. rewrite dict_alter_alter.
    reflexivity. }
  split; [done|].
  intros Ha Hhl Hyl. rewrite Heq, (mouseAction_run Leave _ _ o) by done.
  rewrite (dict_alter_fixed _ p _ o); [|done|].
  - destruct self. simpl in Ha. by rewrite Ha.
  - destruct o as [v [hp hv] [ys yp yv] c]. simpl in *. by rewrite Hhl, Hyl.
Qed.

(** No event removes a plot from [graphics] or [plots] or changes their
    order: [add_plot] appends the plot to [plots], and to the plots of
    [graphics] when it is not among them; the other events, whether they
    return or raise, leave both as they are. *)
Theorem events_keep_plots ev self :
  let s' := (handle mapToView mapFromView ev self).2 in
  match ev with
  | AddPlot p _ =>
      plots s' = plots self ++ [p]
      /\ keys (graphics s')
         = match dict_get p (graphics self) with
           | Some _ => keys (graphics self)
           | None => keys (graphics self) ++ [p]
           end
  | _ => plots s' = plots self /\ keys (graphics s') = keys (graphics self)
  end.
Proof.
  destruct ev as [p d|p i|a p|pos]; cbn [handle]; cbv zeta.
  - rewrite add_plot_run. cbn [snd]. cross_simpl. by rewrite keys_set.
  - pose proof (on_graphics_keys p
                  (fun o => set_cursors (cursors o ++ [i]) o) self)
      as (Hk & Hp & _). done.
  - destruct a; unfold mouseAction, bind, modify.
    all: repeat match goal with
         | |- context [on_graphics ?q ?f ?s] =>
             let H := fresh in
             pose proof (on_graphics_keys q f s) as (? & ? & _);
             destruct (on_graphics q f s) as [[[]|?] ?]
         end; simpl in *; split; congruence.
  - pose proof (mouseMoved_frame pos self) as (Hk & Hp & _). done.
Qed.

(** When the pointer reaches another bar, the x-axis label is placed with
    the [mapFromView] of the last plot of [graphics], the one the loop over
    the plots ended on, and not with that of the active plot, while the y
    it is placed at is the one of the pointer in the active plot. *)
Theorem xaxis_label_placed_by_last_plot self p o pos ix xl q :
  active_plot self = Some p ->
  dict_get p (graphics self) = Some o ->
  round (x (mapToView p pos)) = Ok ix ->
  Some ix <> _lastx self ->
  xaxis_label self = Some xl ->
  list.last (keys (graphics self)) = Some q ->
  exists s',
    mouseMoved mapToView mapFromView pos self = (Ok tt, s')
    /\ xaxis_label s'
       = Some (mkAxisLabel (shown xl)
                 (mapFromView q (mkQPointF (float_of_Z ix)
                                           (y (mapToView p pos))))
                 (Some (x (mapToView p pos)))).
Proof.
  intros Ha Hget Hround Hne Hxl Hq.
  rewrite (mouseMoved_active _ _ _ p o _ ix) by done. cbv zeta.
  rewrite decide_False, Hxl by done.
  eexists. split; [done|]. cross_simpl.
  by rewrite last_key_keys, !keys_alter, Hq.
Qed.

(** [add_plot] returns in every state.  The entry of the plot is a new
    one, also when the plot was added before: its cursors are forgotten and
    its horizontal line and y-axis label are hidden, even if it is the
    active plot; the plot is appended to [plots] once more; the other
    entries, the active plot and [_lastx] stay. *)
Theorem add_plot_new_entry p d self :
  exists s',
    add_plot mapFromView p d self = (Ok tt, s')
    /\ dict_get p (graphics s') = Some new_opts
    /\ (forall q, q <> p ->
                  dict_get q (graphics s') = dict_get q (graphics self))
    /\ plots s' = plots self ++ [p]
    /\ active_plot s' = active_plot self
    /\ _lastx s' = _lastx self
    /\ is_Some (xaxis_label s').
Proof.
  eexists. split; [apply add_plot_run|]. cross_simpl.
  split; [by rewrite dict_get_set, decide_True|].
  split; [|eauto].
  intros q Hq. by rewrite dict_get_set, decide_False.
Qed.

(** A plot added while the pointer rests on a bar is not brought in step
    by further moves over that bar: after [add_plot] and a [mouseMoved]
    that rounds to [_lastx], the entry of the new plot is the one
    [add_plot] made, its vertical line at 0. *)
Theorem added_plot_waits_for_next_bar self p o q d pos ix :
  active_plot self = Some p ->
  dict_get p (graphics self) = Some o ->
  _lastx self = Some ix ->
  round (x (mapToView p pos)) = Ok ix ->
  q <> p ->
  exists s',
    (add_plot mapFromView q d ;; mouseMoved mapToView mapFromView pos)%py self
    = (Ok tt, s')
    /\ dict_get q (graphics s') = Some new_opts
    /\ _lastx s' = Some ix.
Proof.
  intros Ha Hget Hlast Hround Hq.
  unfold bind. rewrite add_plot_run.
  rewrite (mouseMoved_active _ _ _ p o _ ix); cross_simpl; try done; cycle 1.
  { by rewrite dict_get_set, decide_False. }
  cbv zeta. rewrite decide_True by done.
  eexists. split; [done|]. cross_simpl.
  rewrite !dict_get_alter, !decide_False by done.
  by rewrite dict_get_set, decide_True.
Qed.

End EventFacts.

Section EventScenarios.
Import Py Qt Cross CrossEvents.
Local Open Scope Z_scope.

(** Over the two charts a move to x = 3.2 returns, and one to a nan x
    raises the [ValueError] of [round]. *)
Lemma mouseMoved_outcome_witness :
  (mouseMoved scene scene (mkQPointF 3.2 10) two_charts).1 = Ok tt
  /\ (mouseMoved scene scene (mkQPointF nan 10) two_charts).1
     = Raise ValueError.
Proof.
  assert (reachable scene scene two_charts) as Hreach.
  { replace two_charts
      with (handle scene scene (MouseAction Enter 1%nat)
              (handle scene scene (AddCurveCursor 1%nat 5)
                 (handle scene scene (AddPlot 2%nat 0%nat)
                    (handle scene scene (AddPlot 1%nat 0%nat)
                            (init 2)).2).2).2).2
      by (vm_compute; reflexivity).
    repeat (apply reachable_handle;
            [|intros a p [= <- <-] || (intros a p [=])]);
      [apply reachable_init|vm_compute; eauto]. }
  split.
  - rewrite (mouseMoved_outcome scene scene _ two_charts Hreach).
    vm_compute. reflexivity.
  - rewrite (mouseMoved_outcome scene scene _ two_charts Hreach).
    vm_compute. reflexivity.
Defined.

Lemma mouseMoved_again_witness :
  mouseMoved scene scene (mkQPointF 3.2 10) snapped = (Ok tt, snapped).
Proof.
  apply (mouseMoved_again scene scene (mkQPointF 3.2 10) two_charts).
  vm_compute. reflexivity.
Defined.

Lemma enter_then_leave_witness :
  (mouseAction Enter 1%nat ;; mouseAction Leave 1%nat)%py one_chart
  = (Ok tt, one_chart).
Proof.
  apply (enter_then_leave one_chart 1%nat new_opts); reflexivity.
Defined.

(** The pointer is over chart 1 at y = 10, and the label is placed by the
    transform of chart 2, 100 below. *)
Lemma xaxis_label_placed_by_last_plot_witness :
  exists s',
    mouseMoved scene stacked (mkQPointF 3.2 10) two_charts = (Ok tt, s')
    /\ xaxis_label s'
       = Some (mkAxisLabel true (mkQPointF 3 110) (Some 3.2%float)).
Proof.
  destruct (xaxis_label_placed_by_last_plot scene stacked two_charts 1%nat
              (mkOpts (mkInfiniteLine 0 true) (mkInfiniteLine 0 true)
                      (mkAxisLabel true (mkQPointF 0 0) None) [5])
              (mkQPointF 3.2 10) 3
              (mkAxisLabel true (mkQPointF 0 0) None) 2%nat)
    as (s' & Hrun & Hxl);
    [vm_compute; reflexivity..|discriminate|reflexivity|reflexivity|].
  exists s'. split; [exact Hrun|]. rewrite Hxl. vm_compute. reflexivity.
Defined.

(** Chart 3 is added while the pointer rests on bar 3. *)
Lemma added_plot_waits_for_next_bar_witness :
  exists s',
    (add_plot scene 3%nat 0%nat ;;
     mouseMoved scene scene (mkQPointF 3.4 11))%py snapped
    = (Ok tt, s')
    /\ dict_get 3%nat (graphics s') = Some new_opts
    /\ _lastx s' = Some 3.
Proof.
  apply (added_plot_waits_for_next_bar scene scene snapped 1%nat
           (mkOpts (mkInfiniteLine 3 true) (mkInfiniteLine 10 true)
                   (mkAxisLabel true (mkQPointF 3.2 10) (Some 10%float))
                   [3]));
    [vm_compute; reflexivity..|discriminate].
Defined.

End EventScenarios.

(** ** More on the labels *)

Section MoreLabelFacts.
Import Py Qt Labels LabelScenes.
Local Open Scope Z_scope.

Lemma replace_absent a b s : a <> b -> ~ occurs a (replace a b s).
Proof.
  intros Hab. unfold occurs. induction s as [|c s IH]; simpl; [tauto|].
  intros [Hc|Hin]; [|tauto].
  destruct (Ascii.eqb_spec c a); congruence.
Qed.

(** Whatever the level and the class of the label, the text that
    [set_label_str] writes holds no comma: the separators of thousands are
    spaces. *)
Theorem label_text_has_no_comma lv self s' :
  set_label_str lv self = (Ok tt, s') ->
  ~ occurs ","%char (label_str s').
Proof.
  unfold set_label_str, LevelLabel_set_label_str, L1Label_set_label_str,
    bind, gets, modify, try.
  destruct (cls self); [intros [= <-]; by apply replace_absent|].
  destruct (field_f false _ _); [|done].
  destruct (field_f true _ _); [|done].
  intros [= <-]. by apply replace_absent.
Qed.

(** [update_label] of an [L1Label] whose size is zero raises [ValueError]
    before anything is written: the text, the position and the level of
    the label stay. *)
Theorem L1Label_update_label_unknown_size abs_pos lv offset self :
  cls self = L1Label_class ->
  PrimFloat.eqb (size self) 0 = true ->
  update_label abs_pos lv offset self = (Raise ValueError, self).
Proof.
  intros Hcls Hsize.
  unfold update_label, set_label_str, L1Label_set_label_str, bind, gets,
    try, float_or, field_f.
  by rewrite Hcls, Hsize.
Qed.

Lemma item_in_range {A} (l : list A) i :
  0 <= i < len l -> exists a, item l i = Some a /\ l !! Z.to_nat i = Some a.
Proof.
  intros Hi. rewrite item_nonneg by lia.
  destruct (lookup_lt_is_Some_2 l (Z.to_nat i)) as [a Ha];
    [unfold len in Hi; lia|].
  eauto.
Qed.

(** On an array whose rows are numbered one after the other,
    [update_from_value] for an index strictly between the first and the
    last finds a row, the one that has this index, and shows its datum. *)
Theorem update_from_value_reads_row_of_index name index array r0 rl self :
  contiguous array ->
  item array 0 = Some r0 ->
  item array (-1) = Some rl ->
  Datum.index r0 < index < Datum.index rl ->
  exists row,
    item array (index - Datum.index r0) = Some row
    /\ Datum.index row = index
    /\ forall data,
         Datum.field name row = Some data ->
         update_from_value name index array self
         = (Ok tt, mkContentsLabel (name +:+ ": " +:+ format_f false 2 data)).
Proof.
  intros Hcont H0 Hl Hin.
  assert (array !! 0%nat = Some r0) as H0'.
  { by rewrite item_nonneg in H0 by done. }
  assert (Datum.index rl = Datum.index r0 + (len array - 1)) as Hrl.
  { apply item_last in Hl. rewrite last_lookup in Hl.
    rewrite (Hcont _ r0 rl H0' Hl).
    assert (0 < length array)%nat by (by apply lookup_lt_Some in H0').
    unfold len. lia. }
  destruct (item_in_range array (index - Datum.index r0)) as (row & Hrow & Hk);
    [lia|].
  exists row. split; [done|]. split.
  { rewrite (Hcont _ r0 row H0' Hk). lia. }
  intros data Hdata.
  unfold update_from_value. unfold bind at 1. rewrite H0.
  unfold lift at 1, ret at 1. unfold bind at 1. rewrite Hl.
  unfold lift at 1, ret at 1.
  rewrite (proj2 (Z.ltb_lt index (Datum.index rl))) by lia.
  rewrite (proj2 (Z.gtb_lt index (Datum.index r0))) by lia.
  cbn [andb]. unfold bind at 1. rewrite Hrow.
  unfold lift at 1, ret at 1. unfold bind at 1. by rewrite Hdata.
Qed.

(** [update_from_value] raises [IndexError] and leaves the text when the
    array is empty, and when the index lies strictly between those of the
    first and the last row but is as far or further from the first than the
    array has rows, as happens with rows that are not numbered one after
    the other. *)
Theorem update_from_value_IndexError name index array self :
  (array = [] ->
   update_from_value name index array self = (Raise IndexError, self))
  /\ (forall r0 rl,
        item array 0 = Some r0 ->
        item array (-1) = Some rl ->
        Datum.index r0 < index < Datum.index rl ->
        len array <= index - Datum.index r0 ->
        update_from_value name index array self = (Raise IndexError, self)).
Proof.
  split; [by intros ->|].
  intros r0 rl H0 Hl Hin Hfar.
  unfold update_from_value. unfold bind at 1. rewrite H0.
  unfold lift at 1, ret at 1. unfold bind at 1. rewrite Hl.
  unfold lift at 1, ret at 1.
  rewrite (proj2 (Z.ltb_lt index (Datum.index rl))) by lia.
  rewrite (proj2 (Z.gtb_lt index (Datum.index r0))) by lia.
  cbn [andb]. unfold bind at 1.
  assert (item array (index - Datum.index r0) = None) as ->; [|done].
  unfold item, position.
  destruct (Z.ltb_spec (index - Datum.index r0) 0); [lia|].
  destruct (Z.ltb_spec (index - Datum.index r0) (len array)); [lia|].
  by rewrite andb_false_r.
Qed.

(** The older [update_from_value] reads the row at the position [index]:
    from the start for an index from 0 on, from the end for a negative one
    down to minus the number of rows, and raises [IndexError], the text
    staying, for any other index. *)
Theorem legacy_update_from_value_position name index array self :
  (forall row data,
     array !! Z.to_nat (if index <? 0 then index + len array else index)
     = Some row ->
     - len array <= index < len array ->
     Datum.field name row = Some data ->
     LegacyContents.update_from_value name index array self
     = (Ok tt, mkContentsLabel (name +:+ ": " +:+ format_f false 2 data)))
  /\ (index < - len array \/ len array <= index ->
      LegacyContents.update_from_value name index array self
      = (Raise IndexError, self)).
Proof.
  unfold LegacyContents.update_from_value, bind, lift, item, position.
  split.
  - intros row data Hrow Hin Hdata.
    set (j := if index <? 0 then index + len array else index) in *.
    assert (0 <= j < len array) as Hj.
    { unfold j. destruct (Z.ltb_spec index 0); lia. }
    destruct (Z.leb_spec 0 j); [|lia].
    destruct (Z.ltb_spec j (len array)); [|lia].
    simpl. rewrite Hrow. unfold ret at 1. by rewrite Hdata.
  - intros Hout.
    set (j := if index <? 0 then index + len array else index) in *.
    assert (j < 0 \/ len array <= j) as Hj.
    { unfold j. destruct (Z.ltb_spec index 0); lia. }
    destruct (Z.leb_spec 0 j); destruct (Z.ltb_spec j (len array));
      simpl; try done; lia.
Qed.

End MoreLabelFacts.

Section MoreLabelScenarios.
Import Py Qt Labels LabelScenes.
Local Open Scope Z_scope.

(** An ask of 100 at 100000: the text is ["100 x 100 000.00"]. *)
Lemma label_text_has_no_comma_witness :
  label_str (set_label_str 100000 ask_label).2 = "100 x 100 000.00"
  /\ ~ occurs ","%char (label_str (set_label_str 100000 ask_label).2).
Proof.
  split; [vm_compute; reflexivity|].
  apply (label_text_has_no_comma 100000 ask_label).
  vm_compute. reflexivity.
Defined.

Lemma L1Label_update_label_unknown_size_witness :
  update_label (mkQPointF 0 50) 323.3 1 bid_label
  = (Raise ValueError, bid_label).
Proof.
  apply (L1Label_update_label_unknown_size (mkQPointF 0 50) 323.3 1
           bid_label); reflexivity.
Defined.

Lemma update_from_value_reads_row_of_index_witness :
  exists row,
    item rsi_rows (11 - 10) = Some row
    /\ Datum.index row = 11
    /\ forall data,
         Datum.field "rsi" row = Some data ->
         update_from_value "rsi" 11 rsi_rows (mkContentsLabel EmptyString)
         = (Ok tt,
            mkContentsLabel ("rsi" +:+ ": " +:+ format_f false 2 data)).
Proof.
  apply (update_from_value_reads_row_of_index "rsi" 11 rsi_rows
           (Datum.mk 10 [("rsi", 1.5%float)])
           (Datum.mk 13 [("rsi", 4%float)]) (mkContentsLabel EmptyString)).
  - intros k r0 row H0 Hk. injection H0 as <-.
    destruct k as [|[|[|[|k]]]]; simpl in Hk; try discriminate;
      injection Hk as <-; reflexivity.
  - reflexivity.
  - reflexivity.
  - simpl. lia.
Defined.

(** Rows numbered 10 and 50, asked for bar 30. *)
Lemma update_from_value_IndexError_witness :
  update_from_value "rsi" 30 gap_rows (mkContentsLabel EmptyString)
  = (Raise IndexError, mkContentsLabel EmptyString).
Proof.
  apply (update_from_value_IndexError "rsi" 30 gap_rows
           (mkContentsLabel EmptyString))
    with (r0 := Datum.mk 10 [("rsi", 1.5%float)])
         (rl := Datum.mk 50 [("rsi", 2.5%float)]);
    [reflexivity|reflexivity|simpl; lia|vm_compute; discriminate].
Defined.

(** The index -1 shows the last row, and 4 is past the four rows. *)
Lemma legacy_update_from_value_position_witness :
  LegacyContents.update_from_value "rsi" (-1) rsi_rows
    (mkContentsLabel EmptyString)
  = (Ok tt, mkContentsLabel "rsi: 4.00")
  /\ LegacyContents.update_from_value "rsi" 4 rsi_rows
       (mkContentsLabel EmptyString)
     = (Raise IndexError, mkContentsLabel EmptyString).
Proof.
  split.
  - apply (proj1 (legacy_update_from_value_position "rsi" (-1) rsi_rows
                    (mkContentsLabel EmptyString))
             (Datum.mk 13 [("rsi", 4%float)]) 4%float);
      [reflexivity|vm_compute; split; [discriminate|reflexivity]|reflexivity].
  - apply (proj2 (legacy_update_from_value_position "rsi" 4 rsi_rows
                    (mkContentsLabel EmptyString))).
    right. vm_compute. discriminate.
Defined.

(** A new bid label in the older file: the text is ["? x 323.30"]. *)
Lemma legacy_L1Label_unknown_size_witness :
  Legacy.L1Label_set_label_str (fun _ => "100") 323.3 bid_label
  = (Ok tt, set_label_str_field "? x 323.30" bid_label).
Proof.
  apply (legacy_L1Label_unknown_size (fun _ => "100") 323.3 bid_label).
  reflexivity.
Defined.

End MoreLabelScenarios.

(** ** Broker responses *)

Section BrokerFacts.
Import Brokers.
Local Open Scope Z_scope.

Context {J : Type}.

(** [resproc] raises [BrokerError] for a status other than 200 only, with
    the body of the response; a response with status 200 whose content
    cannot be decoded raises [UnboundLocalError] and not
    [BrokerError(resp.text)], and [log.exception] is not called; for one
    that can, the content or the response is returned and traced. *)
Theorem resproc_outcome (resp : Response J) (return_json : bool) :
  (status_code resp <> 200 ->
   resproc resp return_json = (inl (BrokerError (body resp)), []))
  /\ (status_code resp = 200 -> json resp = None ->
      resproc resp return_json = (inl UnboundLocalError, []))
  /\ (forall j, status_code resp = 200 -> json resp = Some j ->
                resproc resp return_json
                = (inr (if return_json then Json j else Resp resp),
                   [Trace j]))
  /\ (forall msg, (resproc resp return_json).1 = inl (BrokerError msg) ->
                  status_code resp <> 200 /\ msg = body resp)
  /\ (forall r, ~ In (Exception r) (resproc resp return_json).2).
Proof.
  unfold resproc.
  destruct (Z.eqb_spec (status_code resp) 200) as [Heq|Hne]; simpl.
  - destruct (json resp) as [j|]; simpl.
    + split; [done|]. split; [done|]. split; [by intros j' _ [= ->]|].
      split; [done|]. by intros r [?|[]].
    + split; [done|]. split; [done|]. split; [done|]. split; [done|].
      by intros r [].
  - split; [done|]. split; [done|]. split; [done|].
    split; [by intros msg [= <-]|]. by intros r [].
Qed.

End BrokerFacts.
